(** * Waitlist signup: the PHP endpoint [api/waitlist.php] and the widget's
      [submitToWaitlist], embedded as Rocq functions.

    PHP strings are byte strings: they are modelled by [string], one [ascii]
    per byte.  The script's effects (response code, echoed body, log lines,
    the CSV file and the operations performed on it, [exit], exceptions) are
    threaded through a small state-and-exit monad. *)

From Stdlib Require Import String Ascii List Bool Arith NArith ZArith Lia.
From Stdlib Require Import DecimalString.
Import ListNotations.
Open Scope string_scope.

(** ** PHP built-ins used by the endpoint *)
Module Php.

Definition LF : ascii := "010"%char.
Definition CR : ascii := "013"%char.
Definition TAB : ascii := "009"%char.
Definition VT : ascii := "011"%char.
Definition NUL : ascii := "000"%char.
Definition SP : ascii := " "%char.
Definition COMMA : ascii := ","%char.
Definition DQUOTE : ascii := "034"%char.
Definition BACKSLASH : ascii := "\"%char.

(** [strlen]: the number of bytes, in [N] so that file sizes compare with
    the 10 MiB bound without unary numbers. *)
Fixpoint strlen_from (acc : N) (s : string) : N :=
  match s with
  | EmptyString => acc
  | String _ r => strlen_from (N.succ acc) r
  end.

Definition strlen (s : string) : N := strlen_from 0 s.

Definition contains (c : ascii) (s : string) : bool :=
  existsb (Ascii.eqb c) (list_ascii_of_string s).

(** The bytes [trim] strips by default: space, tab, newline, carriage return,
    NUL and vertical tab. *)
Definition is_trim_char (c : ascii) : bool :=
  Ascii.eqb c SP || Ascii.eqb c TAB || Ascii.eqb c LF
  || Ascii.eqb c CR || Ascii.eqb c NUL || Ascii.eqb c VT.

Fixpoint ltrim (s : string) : string :=
  match s with
  | EmptyString => EmptyString
  | String c r => if is_trim_char c then ltrim r else s
  end.

Fixpoint rtrim (s : string) : string :=
  match s with
  | EmptyString => EmptyString
  | String c r =>
      match rtrim r with
      | EmptyString => if is_trim_char c then EmptyString else String c EmptyString
      | r' => String c r'
      end
  end.

Definition trim (s : string) : string := rtrim (ltrim s).

Definition is_digit (c : ascii) : bool :=
  let n := nat_of_ascii c in Nat.leb 48 n && Nat.leb n 57.

Definition is_alpha (c : ascii) : bool :=
  let n := nat_of_ascii c in
  (Nat.leb 65 n && Nat.leb n 90) || (Nat.leb 97 n && Nat.leb n 122).

(** FILTER_SANITIZE_EMAIL keeps letters, digits and
    [!#$%&'*+-=?^_`{|}~@.[]], and removes every other byte. *)
Definition email_specials : string := "!#$%&'*+-=?^_`{|}~@.[]".

Definition is_email_char (c : ascii) : bool :=
  is_alpha c || is_digit c || contains c email_specials.

Fixpoint filter_string (p : ascii -> bool) (s : string) : string :=
  match s with
  | EmptyString => EmptyString
  | String c r => if p c then String c (filter_string p r) else filter_string p r
  end.

Definition sanitize_email (s : string) : string := filter_string is_email_char s.

(** [explode(d, s)] for a one-byte delimiter: the pieces between the
    delimiters; never empty. *)
Fixpoint explode (d : ascii) (s : string) : list string :=
  match s with
  | EmptyString => [EmptyString]
  | String c r =>
      if Ascii.eqb c d then EmptyString :: explode d r
      else match explode d r with
           | [] => [String c EmptyString]
           | p :: ps => String c p :: ps
           end
  end.

(** [substr(s, 0, n)]: the first [n] bytes, or all of [s] when it is shorter. *)
Fixpoint substr0 (n : nat) (s : string) : string :=
  match n, s with
  | O, _ => EmptyString
  | S _, EmptyString => EmptyString
  | S k, String c r => String c (substr0 k r)
  end.

(** [file(path)]: the lines of the file, each with its line feed. *)
Fixpoint file_lines (s : string) : list string :=
  match s with
  | EmptyString => []
  | String c r =>
      if Ascii.eqb c LF then String c EmptyString :: file_lines r
      else match file_lines r with
           | [] => [String c EmptyString]
           | l :: ls => String c l :: ls
           end
  end.

(** A line ending: a line feed, with the carriage return before it if there
    is one, or a lone carriage return.  [chomp] removes it from the end of
    a string. *)
Fixpoint chomp (s : string) : string :=
  match s with
  | EmptyString => EmptyString
  | String c r =>
      match r with
      | EmptyString =>
          if Ascii.eqb c LF || Ascii.eqb c CR then EmptyString else s
      | String c2 EmptyString =>
          if Ascii.eqb c CR && Ascii.eqb c2 LF then EmptyString
          else String c (chomp r)
      | _ => String c (chomp r)
      end
  end.

Fixpoint ends_lf (s : string) : bool :=
  match s with
  | EmptyString => false
  | String c EmptyString => Ascii.eqb c LF
  | String _ r => ends_lf r
  end.

Definition nonempty (s : string) : bool :=
  match s with EmptyString => false | _ => true end.

(** [file(path, FILE_IGNORE_NEW_LINES | FILE_SKIP_EMPTY_LINES)]: a line that
    ends with a line feed loses it, and a carriage return just before it,
    and is dropped when nothing is left; the bytes after the last line feed
    make a last line, kept as it is. *)
Definition line_text (l : string) : string :=
  if ends_lf l then chomp l else l.

Definition file_lines_skip_empty (s : string) : list string :=
  filter nonempty (map line_text (file_lines s)).

(** [fputcsv]: a field is enclosed in double quotes when it holds the
    delimiter, the enclosure, the escape byte, a line feed, a carriage return,
    a tab or a space; inside, an enclosure is doubled unless the byte before
    it was the escape byte.  Fields are joined by commas and the line ends
    with a line feed. *)
Definition needs_enclosure (f : string) : bool :=
  contains COMMA f || contains DQUOTE f || contains BACKSLASH f
  || contains LF f || contains CR f || contains TAB f || contains SP f.

Fixpoint enclose_body (escaped : bool) (f : string) : string :=
  match f with
  | EmptyString => String DQUOTE EmptyString
  | String c r =>
      if Ascii.eqb c BACKSLASH then String c (enclose_body true r)
      else if negb escaped && Ascii.eqb c DQUOTE
           then String DQUOTE (String c (enclose_body escaped r))
           else String c (enclose_body false r)
  end.

Definition csv_field (f : string) : string :=
  if needs_enclosure f then String DQUOTE (enclose_body false f) else f.

Fixpoint csv_join (fs : list string) : string :=
  match fs with
  | [] => EmptyString
  | [f] => csv_field f
  | f :: r => csv_field f ++ String COMMA (csv_join r)
  end.

Definition fputcsv_line (fs : list string) : string :=
  csv_join fs ++ String LF EmptyString.

(** Predicates on strings used to describe ledgers and rows. *)
Definition email_chars (s : string) : bool :=
  forallb is_email_char (list_ascii_of_string s).

Definition one_line (fs : list string) : bool :=
  forallb (fun f => negb (contains LF f)) fs.

Fixpoint starts_with (p s : string) : bool :=
  match p, s with
  | EmptyString, _ => true
  | String a p', String b s' => Ascii.eqb a b && starts_with p' s'
  | String _ _, EmptyString => false
  end.

End Php.

Import Php.

(** ** Decoded JSON values

    [json_decode(..., true)] yields PHP values; objects become associative
    arrays.  Numbers are restricted to integer literals: [JNum z] is the
    value the literal [z] decodes to. *)
#[local] Set Warnings "-register-all".
Inductive json : Type :=
  | JNull
  | JBool (b : bool)
  | JNum (z : Z)
  | JStr (s : string)
  | JArr (items : list json)
  | JObj (fields : list (string * json)).

Fixpoint assoc {A : Type} (k : string) (kvs : list (string * A)) : option A :=
  match kvs with
  | [] => None
  | (k', v) :: r => if String.eqb k k' then Some v else assoc k r
  end.

Definition decimal (z : Z) : string := NilZero.string_of_int (Z.to_int z).

(** [!$v]: PHP's falsy values. *)
Definition php_not (v : json) : bool :=
  match v with
  | JNull => true
  | JBool b => negb b
  | JNum z => Z.eqb z 0
  | JStr s => String.eqb s "" || String.eqb s "0"
  | JArr l => match l with [] => true | _ => false end
  | JObj l => match l with [] => true | _ => false end
  end.

(** [$v[k]] for a string key [k]: only an associative array has one. *)
Definition index (v : json) (k : string) : option json :=
  match v with
  | JObj kvs => assoc k kvs
  | _ => None
  end.

(** [isset($v[k])]: the key exists and its value is not null. *)
Definition isset (v : json) (k : string) : bool :=
  match index v k with
  | Some JNull => false
  | Some _ => true
  | None => false
  end.

(** *** Integers outside the 64-bit range

    [json_decode] keeps an integer literal as an integer when it lies
    between [PHP_INT_MIN] and [PHP_INT_MAX]; any other becomes the double
    nearest to it, or an infinity.  A double converts to a string with 14
    significant digits (the setting [precision] at its default); at the
    size at hand the conversion is always in exponent form. *)
Definition PHP_INT_MAX : Z := 9223372036854775807.
Definition PHP_INT_MIN : Z := -9223372036854775808.

Definition is_php_int (z : Z) : bool :=
  Z.leb PHP_INT_MIN z && Z.leb z PHP_INT_MAX.

(** [q + 1] when the remainder [r] is above [half], or equal to it with [q]
    odd; [q] otherwise. *)
Definition round_half_even (q r half : Z) : Z :=
  if Z.ltb half r || (Z.eqb r half && Z.odd q) then (q + 1)%Z else q.

(** The double nearest to a positive integer, as an integer: 53 bits are
    kept.  [None] stands for the infinity that 2^1024 and more round to. *)
Definition nearest_double (a : Z) : option Z :=
  let shift := (Z.log2 a - 52)%Z in
  if Z.leb shift 0 then Some a
  else
    let q := Z.shiftr a shift in
    let r := Z.land a (Z.ones shift) in
    let v := Z.shiftl (round_half_even q r (Z.shiftl 1 (shift - 1))) shift in
    if Z.leb (Z.shiftl 1 1024) v then None else Some v.

Fixpoint strip_zeros (s : string) : string :=
  match s with
  | EmptyString => EmptyString
  | String c r =>
      match strip_zeros r with
      | EmptyString =>
          if Ascii.eqb c "0"%char then EmptyString else String c EmptyString
      | r' => String c r'
      end
  end.

(** A positive integer of more than 14 digits with 14 significant digits:
    one digit, the point, the other digits without trailing zeros (one zero
    when there is none), [E+] and the exponent. *)
Definition exponent_form (v : Z) : string :=
  let digits := Z.of_nat (String.length (decimal v)) in
  let p := (10 ^ (digits - 14))%Z in
  let q := round_half_even (v / p) (v mod p) (p / 2) in
  let '(q, e) := if Z.eqb q (10 ^ 14) then ((10 ^ 13)%Z, digits)
                 else (q, (digits - 1)%Z) in
  match strip_zeros (decimal q) with
  | String c r =>
      String c (String "."%char (if nonempty r then r else "0"))
      ++ "E+" ++ decimal e
  | EmptyString => EmptyString
  end.

(** The string of the double a literal outside the integer range becomes. *)
Definition float_string (z : Z) : string :=
  (if Z.ltb z 0 then "-" else "")
  ++ match nearest_double (Z.abs z) with
     | Some v => exponent_form v
     | None => "INF"
     end.

(** The string of a number decoded from an integer literal. *)
Definition number_string (z : Z) : string :=
  if is_php_int z then decimal z else float_string z.

(** The string a scalar converts to; an array has no string conversion as
    an argument of [trim] (PHP 8 raises a TypeError then). *)
Definition scalar_string (v : json) : option string :=
  match v with
  | JNull => Some ""
  | JBool true => Some "1"
  | JBool false => Some ""
  | JNum z => Some (number_string z)
  | JStr s => Some s
  | JArr _ | JObj _ => None
  end.

(** The string [fputcsv] writes for a field: an array is written as the
    word Array. *)
Definition field_string (v : json) : string :=
  match scalar_string v with
  | Some s => s
  | None => "Array"
  end.

(** ** Requests, the disk and the script's state *)

Record Server : Type := {
  REQUEST_METHOD : string;
  HTTP_USER_AGENT : option string;
  HTTP_X_FORWARDED_FOR : option string;
  REMOTE_ADDR : option string
}.

(** [input] is [json_decode(file_get_contents('php://input'), true)], [JNull]
    for an absent or undecodable body; [now] is what [date('Y-m-d H:i:s')]
    returns during the request. *)
Record Request : Type := {
  server : Server;
  input : json;
  now : string
}.

(** [csv] is the content of [../data/waitlist.csv], [None] when the file does
    not exist.  [fopen_ok] and [write_ok] say whether the storage lets the
    file be opened for appending and written to. *)
Record Disk : Type := {
  csv : option string;
  data_dir : bool;
  fopen_ok : bool;
  write_ok : bool
}.

Inductive fs_op : Type :=
  | OpIsDir | OpMkdir | OpFileExists | OpFile | OpFilesize
  | OpFopen | OpFputcsv | OpFclose.

Record State : Type := {
  disk : Disk;
  ops : list fs_op;          (* file-system calls made so far, oldest first *)
  log : list string;         (* error_log lines, oldest first *)
  code : nat;                (* http_response_code *)
  body : list json           (* values echoed through json_encode *)
}.

Definition initial (d : Disk) : State :=
  {| disk := d; ops := []; log := []; code := 200; body := [] |}.

(** ** The script monad: state, [exit] and exceptions *)

Inductive throwable : Type :=
  | Exception (msg : string)
  | TypeError (msg : string).

Inductive result (A : Type) : Type :=
  | Val (a : A)
  | Exited
  | Thrown (e : throwable).
Arguments Val {A} a.
Arguments Exited {A}.
Arguments Thrown {A} e.

Definition Script (A : Type) : Type := State -> result A * State.

Definition ret {A} (a : A) : Script A := fun st => (Val a, st).

Definition bind {A B} (m : Script A) (k : A -> Script B) : Script B :=
  fun st =>
    match m st with
    | (Val a, st') => k a st'
    | (Exited, st') => (Exited, st')
    | (Thrown e, st') => (Thrown e, st')
    end.

Notation "x <- m ;; k" := (bind m (fun x => k))
  (at level 61, m at next level, right associativity).
Notation "m ;; k" := (bind m (fun _ => k))
  (at level 61, right associativity).

Definition exit : Script unit := fun st => (Exited, st).
Definition throw {A} (e : throwable) : Script A := fun st => (Thrown e, st).

Definition when (b : bool) (m : Script unit) : Script unit :=
  if b then m else ret tt.

(** [try { m } catch (Exception $e) { h }]: a TypeError is not an Exception
    and passes through. *)
Definition try_catch (m : Script unit) (h : string -> Script unit) : Script unit :=
  fun st =>
    match m st with
    | (Thrown (Exception msg), st') => h msg st'
    | r => r
    end.

Fixpoint foreach {A} (l : list A) (f : A -> Script unit) : Script unit :=
  match l with
  | [] => ret tt
  | x :: r => f x ;; foreach r f
  end.

Definition upd_disk (f : Disk -> Disk) (st : State) : State :=
  {| disk := f (disk st); ops := ops st; log := log st;
     code := code st; body := body st |}.

Definition record_op (o : fs_op) (st : State) : State :=
  {| disk := disk st; ops := ops st ++ [o]; log := log st;
     code := code st; body := body st |}.

Definition http_response_code (c : nat) : Script unit :=
  fun st => (Val tt, {| disk := disk st; ops := ops st; log := log st;
                        code := c; body := body st |}).

Definition echo (v : json) : Script unit :=
  fun st => (Val tt, {| disk := disk st; ops := ops st; log := log st;
                        code := code st; body := body st ++ [v] |}).

Definition error_log (l : string) : Script unit :=
  fun st => (Val tt, {| disk := disk st; ops := ops st; log := log st ++ [l];
                        code := code st; body := body st |}).

Definition is_dir : Script bool :=
  fun st => (Val (data_dir (disk st)), record_op OpIsDir st).

Definition mkdir : Script unit :=
  fun st => (Val tt,
             upd_disk (fun d => {| csv := csv d; data_dir := true;
                                   fopen_ok := fopen_ok d; write_ok := write_ok d |})
                      (record_op OpMkdir st)).

Definition file_exists : Script bool :=
  fun st => (Val (match csv (disk st) with Some _ => true | None => false end),
             record_op OpFileExists st).

Definition content (d : Disk) : string :=
  match csv d with Some s => s | None => "" end.

(** [file($csvFile)] and [file($csvFile, flags)] read the same bytes; the
    caller splits them. *)
Definition file_get : Script string :=
  fun st => (Val (content (disk st)), record_op OpFile st).

Definition filesize : Script N :=
  fun st => (Val (strlen (content (disk st))), record_op OpFilesize st).

(** [fopen($csvFile, 'a')] creates the file when it is missing. *)
Definition fopen_append : Script bool :=
  fun st =>
    if fopen_ok (disk st)
    then (Val true,
          upd_disk (fun d => {| csv := Some (content d); data_dir := data_dir d;
                                fopen_ok := fopen_ok d; write_ok := write_ok d |})
                   (record_op OpFopen st))
    else (Val false, record_op OpFopen st).

Definition fputcsv (fs : list string) : Script bool :=
  fun st =>
    if write_ok (disk st)
    then (Val true,
          upd_disk (fun d => {| csv := Some (content d ++ fputcsv_line fs);
                                data_dir := data_dir d;
                                fopen_ok := fopen_ok d; write_ok := write_ok d |})
                   (record_op OpFputcsv st))
    else (Val false, record_op OpFputcsv st).

Definition fclose : Script unit :=
  fun st => (Val tt, record_op OpFclose st).

Definition maxFileSize : N := 10 * 1024 * 1024.

Definition csv_header : list string :=
  ["email"; "timestamp"; "source"; "ip_address"; "user_agent"].

Definition or_else (o : option string) (d : string) : string :=
  match o with Some s => s | None => d end.

(** A ledger as the endpoint leaves it: empty, or the header line followed
    by complete lines. *)
Definition ledger_ok (f : string) : bool :=
  negb (nonempty f)
  || (starts_with (fputcsv_line csv_header) f && ends_lf f).

(** *** Records

    The records of a ledger are the rows the endpoint has appended to it,
    oldest first.  [ledger_of rows] is the file the endpoint has written once
    it has accepted [rows] one after the other: the header line, then one
    [fputcsv] line per row.  [holds d rows] says that the ledger on disk [d]
    is the one of [rows]; a missing or empty file holds no record. *)
Fixpoint rows_text (rows : list (list string)) : string :=
  match rows with
  | [] => ""
  | row :: more => fputcsv_line row ++ rows_text more
  end.

Definition ledger_of (rows : list (list string)) : string :=
  fputcsv_line csv_header ++ rows_text rows.

Definition holds (d : Disk) (rows : list (list string)) : bool :=
  String.eqb (content d) (ledger_of rows)
  || match rows with
     | [] => negb (nonempty (content d))
     | _ => false
     end.

(** A row of at least two fields, none with a line feed in it. *)
Definition one_line_record (row : list string) : bool :=
  match row with
  | _ :: _ :: _ => one_line row
  | _ => false
  end.

(** ** Reference instances of the platform's filters and CSV reader

    The endpoint is verified for every email filter, address filter and CSV
    reader (they are parameters of the handler below).  For running it on
    concrete requests, these instances are used: a dot-atom mail address
    with a dotted host name, a dotted-quad IPv4 address, and a CSV reader
    with double-quote enclosures. *)
Module Reference.

Definition all_chars (p : ascii -> bool) (s : string) : bool :=
  forallb p (list_ascii_of_string s).

Definition is_atext (c : ascii) : bool :=
  is_alpha c || is_digit c || contains c "!#$%&'*+-/=?^_`{|}~.".

Definition is_label_char (c : ascii) : bool :=
  is_alpha c || is_digit c || Ascii.eqb c "-"%char.

Definition validate_email (s : string) : bool :=
  match explode "@"%char s with
  | [loc; dom] =>
      nonempty loc && all_chars is_atext loc
      && Nat.leb 2 (List.length (explode "."%char dom))
      && forallb (fun l => nonempty l && all_chars is_label_char l)
                 (explode "."%char dom)
  | _ => false
  end.

Definition octet_value (s : string) : nat :=
  fold_left (fun acc c => 10 * acc + (nat_of_ascii c - 48))
            (list_ascii_of_string s) 0.

Definition is_octet (s : string) : bool :=
  nonempty s && all_chars is_digit s && Nat.leb (String.length s) 3
  && Nat.leb (octet_value s) 255
  && (String.eqb s "0" || negb (String.eqb (substr0 1 s) "0")).

Definition validate_ip (s : string) : bool :=
  match explode "."%char s with
  | [a; b; c; d] => is_octet a && is_octet b && is_octet c && is_octet d
  | _ => false
  end.

Inductive pstate : Type := FieldStart | Plain | Enclosed | AfterQuote.

Definition emit (cur : list ascii) (acc : list (option string))
  : list (option string) :=
  Some (string_of_list_ascii (rev cur)) :: acc.

(** [cur] holds the bytes of the current field and [acc] the finished
    fields, both latest first. *)
Fixpoint fields (st : pstate) (cur : list ascii) (acc : list (option string))
  (s : string) : list (option string) :=
  match s with
  | EmptyString => rev (emit cur acc)
  | String c r =>
      match st with
      | FieldStart =>
          if Ascii.eqb c DQUOTE then fields Enclosed [] acc r
          else if Ascii.eqb c COMMA then fields FieldStart [] (emit [] acc) r
          else fields Plain [c] acc r
      | Plain =>
          if Ascii.eqb c COMMA then fields FieldStart [] (emit cur acc) r
          else fields Plain (c :: cur) acc r
      | Enclosed =>
          if Ascii.eqb c DQUOTE then fields AfterQuote cur acc r
          else fields Enclosed (c :: cur) acc r
      | AfterQuote =>
          if Ascii.eqb c DQUOTE then fields Enclosed (c :: cur) acc r
          else if Ascii.eqb c COMMA then fields FieldStart [] (emit cur acc) r
          else fields Plain (c :: cur) acc r
      end
  end.

(** The line ending is removed before the fields are read; a blank line is
    read as a single null field. *)
Definition str_getcsv (line : string) : list (option string) :=
  match chomp line with
  | EmptyString => [None]
  | l => fields FieldStart [] [] l
  end.

End Reference.

(** ** Concrete requests and ledgers *)
Module Sample.

Definition browser : Server :=
  {| REQUEST_METHOD := "POST";
     HTTP_USER_AGENT := Some "Mozilla/5.0 (X11; Linux x86_64)";
     HTTP_X_FORWARDED_FOR := Some " 203.0.113.7, 198.51.100.2";
     REMOTE_ADDR := Some "10.0.0.1" |}.

Definition with_method (m : string) (sv : Server) : Server :=
  {| REQUEST_METHOD := m;
     HTTP_USER_AGENT := HTTP_USER_AGENT sv;
     HTTP_X_FORWARDED_FOR := HTTP_X_FORWARDED_FOR sv;
     REMOTE_ADDR := REMOTE_ADDR sv |}.

Definition post (payload : json) (t : string) : Request :=
  {| server := browser; input := payload; now := t |}.

Definition signup (email : string) (t : string) : Request :=
  post (JObj [("email", JStr email); ("source", JStr "landing_page")]) t.

Definition with_server (sv : Server) (rq : Request) : Request :=
  {| server := sv; input := input rq; now := now rq |}.

Definition get : Request :=
  with_server (with_method "GET" browser) (post JNull "2024-01-15 10:29:00").

Definition options : Request :=
  with_server (with_method "OPTIONS" browser) (post JNull "2024-01-15 10:29:00").

Definition no_payload : Request := post JNull "2024-01-15 10:29:00".

Definition no_email : Request :=
  post (JObj [("source", JStr "landing_page")]) "2024-01-15 10:29:00".

Definition not_an_email : Request := signup "not-an-email" "2024-01-15 10:29:00".

Definition empty_email : Request := signup "" "2024-01-15 10:29:00".

Definition upper : Request := signup "USER@Example.com " "2024-01-15 10:30:00".
Definition upper_again : Request :=
  signup "  USER@Example.com" "2024-01-15 10:31:00".
Definition lower : Request := signup "user@example.com" "2024-01-15 10:31:00".
Definition newcomer : Request := signup "new@example.com" "2024-01-15 10:32:00".

(** A source tag with a line feed in it. *)
Definition two_line_source : Request :=
  post (JObj [("email", JStr "user@example.com");
              ("source", JStr ("promo" ++ String LF "spring"))])
       "2024-01-15 10:30:00".

(** A source tag with a line feed followed by someone else's email. *)
Definition planting : Request :=
  post (JObj [("email", JStr "promo@example.com");
              ("source", JStr ("promo" ++ String LF "victim@example.com,"))])
       "2024-01-15 10:33:00".

Definition victim : Request := signup "victim@example.com" "2024-01-15 10:34:00".

(** A user agent of 262 bytes, and its first 200. *)
Definition long_agent : string :=
  "Mozilla/5.0 (X11; Linux x86_64) AppleWebKit/537.36 (KHTML, like Gecko) Chrome/120.0.0.0 Safari/537.36 Edg/120.0.0.0 FirstExtension/1.2.3 SecondExtension/4.5.6 ThirdExtension/7.8.9 FourthExtension/10.11.12 FifthExtension/13.14.15 SixthExtension/16.17.18 Seventh/1".

Definition long_agent_200 : string :=
  "Mozilla/5.0 (X11; Linux x86_64) AppleWebKit/537.36 (KHTML, like Gecko) Chrome/120.0.0.0 Safari/537.36 Edg/120.0.0.0 FirstExtension/1.2.3 SecondExtension/4.5.6 ThirdExtension/7.8.9 FourthExtension/10.1".

(** A signup from a browser with that user agent, with a source that is an
    integer above the 64-bit range. *)
Definition long_agent_signup : Request :=
  {| server := {| REQUEST_METHOD := "POST";
                  HTTP_USER_AGENT := Some long_agent;
                  HTTP_X_FORWARDED_FOR := None;
                  REMOTE_ADDR := Some "198.51.100.7 " |};
     input := JObj [("email", JStr "agent@example.com");
                    ("source", JNum 9223372036854775808)];
     now := "2024-01-15 10:36:00" |}.

Definition on_disk (f : option string) : Disk :=
  {| csv := f; data_dir := true; fopen_ok := true; write_ok := true |}.

Definition no_ledger : Disk :=
  {| csv := None; data_dir := false; fopen_ok := true; write_ok := true |}.

Definition header_line : string := fputcsv_line csv_header.

Definition user_row : list string :=
  ["user@example.com"; "2024-01-15 10:30:00"; "landing_page"; "203.0.113.7";
   "Mozilla/5.0 (X11; Linux x86_64) AppleWebKit/537.36 (KHTML, like Gecko) Chrome/120.0 Safari/537.36"].

Definition row : string := fputcsv_line user_row.

Definition short_row : string :=
  fputcsv_line ["a@example.org"; "2024-01-15 10:31:00"; "q"; "unknown"; ""].

(** The header and the row of user@example.com. *)
Definition one_row : Disk := on_disk (Some (header_line ++ row)).

(** The same ledger on a storage that refuses to open the file, and on one
    that opens it but refuses to write. *)
Definition read_only : Disk :=
  {| csv := Some (header_line ++ row); data_dir := true;
     fopen_ok := false; write_ok := true |}.

Definition disk_full : Disk :=
  {| csv := Some (header_line ++ row); data_dir := true;
     fopen_ok := true; write_ok := false |}.

(** [copies p s]: [s] repeated [p] times. *)
Fixpoint copies (p : positive) (s : string) : string :=
  match p with
  | xH => s
  | xO q => let r := copies q s in r ++ r
  | xI q => let r := copies q s in s ++ r ++ r
  end.

(** A ledger of exactly 10 MiB: the header (45 bytes), 63937 rows of 164
    bytes and one of 47. *)
Definition full_ledger : string :=
  header_line ++ copies 63937 row ++ short_row.

(** The same ledger with one more row: 164 bytes over the bound. *)
Definition oversize_ledger : string := full_ledger ++ row.

Definition full : Disk := on_disk (Some full_ledger).
Definition oversize : Disk := on_disk (Some oversize_ledger).

End Sample.

(** ** The widget's [submitToWaitlist] (the script named part_003)

    [localStorage] holds JSON text written by [JSON.stringify]; an item is
    modelled by the value [JSON.parse] reads back, [None] when the key is
    not set. *)
Module Widget.

Record Meta : Type := {
  timestamp : string;
  source : string;
  position : Z
}.

Record LocalStorage : Type := {
  waitlist_emails : option (list string);
  waitlist_data : option (list (string * Meta))
}.

(** What the request to [/api/waitlist.php] comes to: [fetch] rejects, or a
    response arrives with a status and a body; [payload] is [None] when the
    body is not JSON and [response.json()] rejects. *)
Inductive fetched : Type :=
  | NetworkError (msg : string)
  | HttpResponse (status : nat) (payload : option json).

(** [response.ok] *)
Definition ok (status : nat) : bool := Nat.leb 200 status && Nat.leb status 299.

Inductive settled : Type :=
  | Resolved (value : json)
  | Rejected (msg : string).

Definition includes (email : string) (l : list string) : bool :=
  existsb (String.eqb email) l.

(** Writing an own property: a property the object has is replaced where it
    stands, a new one goes to the end. *)
Fixpoint put {A : Type} (k : string) (v : A) (o : list (string * A))
  : list (string * A) :=
  match o with
  | [] => [(k, v)]
  | (k', v') :: r =>
      if String.eqb k k' then (k, v) :: r else (k', v') :: put k v r
  end.

Definition has_own {A : Type} (k : string) (o : list (string * A)) : bool :=
  match assoc k o with Some _ => true | None => false end.

(** [obj[k] = v] for an object [v], on an object made by [JSON.parse]; the
    list holds its own properties, the ones [JSON.stringify] writes.  The
    key [__proto__] on an object without an own property of that name
    reaches the setter of [Object.prototype]: the prototype is replaced and
    no property is added. *)
Definition set_key {A : Type} (k : string) (v : A) (o : list (string * A))
  : list (string * A) :=
  if String.eqb k "__proto__" && negb (has_own k o) then o else put k v o.

Definition already_message : string :=
  "You're already on the waitlist! We'll notify you when Kenz Tasks launches.".

(** The three characters the source text has before the word Welcome, as
    the seven bytes of their UTF-8 encoding. *)
Definition party : string :=
  string_of_list_ascii
    (map ascii_of_nat [196; 159; 197; 184; 226; 128; 176]).

Definition welcome (n : Z) : string :=
  party ++ " Welcome to the waitlist! You're #" ++ decimal n
        ++ " in line. We'll notify you when Kenz Tasks launches.".

Definition get_emails (ls : LocalStorage) : list string :=
  match waitlist_emails ls with Some l => l | None => [] end.

Definition get_data (ls : LocalStorage) : list (string * Meta) :=
  match waitlist_data ls with Some o => o | None => [] end.

Definition len (l : list string) : Z := Z.of_nat (List.length l).

(** The timer callback of the [catch] branch.  [t_meta] and [t_result] are
    the two readings of [new Date().toISOString()]. *)
Definition demo (email t_meta t_result : string) (ls : LocalStorage)
  : settled * LocalStorage :=
  let existingEmails := get_emails ls in
  if includes email existingEmails then
    (Resolved (JObj [("success", JBool true);
                     ("message", JStr already_message);
                     ("alreadyExists", JBool true);
                     ("waitlistPosition", JNum (len existingEmails))]),
     ls)
  else
    let existingEmails := (existingEmails ++ [email])%list in
    let waitlistData :=
      set_key email {| timestamp := t_meta; source := "github_pages_demo";
                       position := len existingEmails |} (get_data ls) in
    (Resolved (JObj [("success", JBool true);
                     ("message", JStr (welcome (len existingEmails)));
                     ("waitlistPosition", JNum (len existingEmails));
                     ("timestamp", JStr t_result);
                     ("demoMode", JBool true)]),
     {| waitlist_emails := Some existingEmails;
        waitlist_data := Some waitlistData |}).

Definition submitToWaitlist (email : string) (net : fetched)
  (t_meta t_result : string) (ls : LocalStorage) : settled * LocalStorage :=
  match net with
  | HttpResponse status payload =>
      if negb (ok status) then demo email t_meta t_result ls
      else match payload with
           | Some result => (Resolved result, ls)
           | None => demo email t_meta t_result ls
           end
  | NetworkError _ => demo email t_meta t_result ls
  end.

(** A field of a settled result. *)
Definition prop (k : string) (r : settled) : option json :=
  match r with
  | Resolved v => index v k
  | Rejected _ => None
  end.

(** A browser in which user@example.com has joined in demo mode. *)
Definition one_signup : LocalStorage :=
  {| waitlist_emails := Some ["user@example.com"];
     waitlist_data :=
       Some [("user@example.com",
              {| timestamp := "2024-01-15T10:30:00.000Z";
                 source := "github_pages_demo";
                 position := 1 |})] |}.

Definition unreachable : fetched := NetworkError "Failed to fetch".

End Widget.

(** ** Regular expressions

    The patterns of the scripts use character classes, concatenation and
    [+] between [^] and [$]: [test] then says whether the whole string is in
    the language of the pattern.  The matcher takes derivatives. *)
Module Regex.
Section Re.

Variable A : Type.

Inductive re : Type :=
  | Void
  | Eps
  | Class (p : A -> bool)
  | Cat (r s : re)
  | Alt (r s : re)
  | Star (r : re).

(** [r+] *)
Definition plus (r : re) : re := Cat r (Star r).

Fixpoint nullable (r : re) : bool :=
  match r with
  | Void => false
  | Eps => true
  | Class _ => false
  | Cat r s => nullable r && nullable s
  | Alt r s => nullable r || nullable s
  | Star _ => true
  end.

Fixpoint deriv (a : A) (r : re) : re :=
  match r with
  | Void => Void
  | Eps => Void
  | Class p => if p a then Eps else Void
  | Cat r s =>
      if nullable r then Alt (Cat (deriv a r) s) (deriv a s)
      else Cat (deriv a r) s
  | Alt r s => Alt (deriv a r) (deriv a s)
  | Star r => Cat (deriv a r) (Star r)
  end.

Fixpoint matches (r : re) (s : list A) : bool :=
  match s with
  | [] => nullable r
  | a :: t => matches (deriv a r) t
  end.

(** The language of a pattern. *)
Inductive lang : re -> list A -> Prop :=
  | lang_eps : lang Eps []
  | lang_class p a : p a = true -> lang (Class p) [a]
  | lang_cat r s u v : lang r u -> lang s v -> lang (Cat r s) (u ++ v)
  | lang_alt_l r s u : lang r u -> lang (Alt r s) u
  | lang_alt_r r s u : lang s u -> lang (Alt r s) u
  | lang_star_nil r : lang (Star r) []
  | lang_star_more r u v : lang r u -> lang (Star r) v -> lang (Star r) (u ++ v).

End Re.

Arguments Void {A}.
Arguments Eps {A}.
Arguments Class {A} p.
Arguments Cat {A} r s.
Arguments Alt {A} r s.
Arguments Star {A} r.
Arguments plus {A} r.
Arguments nullable {A} r.
Arguments deriv {A} a r.
Arguments matches {A} r s.
Arguments lang {A} r s.

End Regex.

(** ** The waitlist form: the rest of [WaitlistManager]

    The class is the same in part_003 and in assets/js/waitlist.js but for
    [submitToWaitlist].  A JS string is modelled by [string], one [ascii]
    per code unit, so code units above 255 are outside the model.  The
    timers that hide a message after five seconds are left out: the state
    described is the one the handler leaves. *)
Module Form.

(** The code units below 256 that [\s] matches and [trim] strips. *)
Definition js_space (c : ascii) : bool :=
  let n := nat_of_ascii c in
  (Nat.leb 9 n && Nat.leb n 13) || Nat.eqb n 32 || Nat.eqb n 160.

Fixpoint trim_start (s : string) : string :=
  match s with
  | EmptyString => EmptyString
  | String c r => if js_space c then trim_start r else s
  end.

Fixpoint trim_end (s : string) : string :=
  match s with
  | EmptyString => EmptyString
  | String c r =>
      match trim_end r with
      | EmptyString => if js_space c then EmptyString else String c EmptyString
      | r' => String c r'
      end
  end.

(** [s.trim()] *)
Definition js_trim (s : string) : string := trim_end (trim_start s).

Definition is_at (c : ascii) : bool := Ascii.eqb c "@"%char.
Definition is_dot (c : ascii) : bool := Ascii.eqb c "."%char.

(** [[^\s@]] *)
Definition not_space_at (c : ascii) : bool := negb (js_space c || is_at c).

(** [/^[^\s@]+@[^\s@]+\.[^\s@]+$/] *)
Definition emailRegex : Regex.re ascii :=
  Regex.Cat (Regex.plus (Regex.Class not_space_at))
    (Regex.Cat (Regex.Class is_at)
       (Regex.Cat (Regex.plus (Regex.Class not_space_at))
          (Regex.Cat (Regex.Class is_dot)
             (Regex.plus (Regex.Class not_space_at))))).

(** [emailRegex.test(email)] *)
Definition test (r : Regex.re ascii) (s : string) : bool :=
  Regex.matches r (list_ascii_of_string s).

(** A non-empty string without white space and without [@]. *)
Definition part (s : string) : bool :=
  nonempty s && forallb not_space_at (list_ascii_of_string s).

(** An element that shows a message; the class [show] makes it visible. *)
Record Message : Type := {
  textContent : string;
  show : bool
}.

Record Input : Type := {
  value : string;
  has_error : bool;          (* class error *)
  has_success : bool;        (* class success *)
  disabled : bool
}.

Record Button : Type := {
  loading : bool;            (* class loading *)
  btn_disabled : bool;
  aria_busy : option string
}.

(** The manager and the elements it touches.  An element looked up by id
    may be missing ([None]); the live region is created on first use.
    [tracked] lists the [trackEvent] calls with the email or error message
    they carry. *)
Record Manager : Type := {
  emailInput : Input;
  submitBtn : Button;
  email_error : option Message;
  success_message : option Message;
  global_error_message : option Message;
  live_region : option string;
  isSubmitting : bool;
  tracked : list (string * string)
}.

Definition with_input (f : Input -> Input) (m : Manager) : Manager :=
  {| emailInput := f (emailInput m); submitBtn := submitBtn m;
     email_error := email_error m; success_message := success_message m;
     global_error_message := global_error_message m;
     live_region := live_region m; isSubmitting := isSubmitting m;
     tracked := tracked m |}.

Definition say (text : string) (e : option Message) : option Message :=
  option_map (fun _ => {| textContent := text; show := true |}) e.

Definition hide (e : option Message) : option Message :=
  option_map (fun x => {| textContent := textContent x; show := false |}) e.

Definition announceToScreenReader (message : string) (m : Manager) : Manager :=
  {| emailInput := emailInput m; submitBtn := submitBtn m;
     email_error := email_error m; success_message := success_message m;
     global_error_message := global_error_message m;
     live_region := Some message; isSubmitting := isSubmitting m;
     tracked := tracked m |}.

Definition with_email_error (f : option Message -> option Message)
  (m : Manager) : Manager :=
  {| emailInput := emailInput m; submitBtn := submitBtn m;
     email_error := f (email_error m); success_message := success_message m;
     global_error_message := global_error_message m;
     live_region := live_region m; isSubmitting := isSubmitting m;
     tracked := tracked m |}.

Definition showFieldError (message : string) (m : Manager) : Manager :=
  let m := with_input (fun i => {| value := value i; has_error := true;
                                   has_success := has_success i;
                                   disabled := disabled i |}) m in
  let m := with_email_error (say message) m in
  announceToScreenReader message m.

Definition hideFieldError (m : Manager) : Manager :=
  with_email_error hide m.

Definition clear_classes (i : Input) : Input :=
  {| value := value i; has_error := false; has_success := false;
     disabled := disabled i |}.

Definition validateEmail (email : string) (m : Manager) : bool * Manager :=
  let m := with_input clear_classes m in
  if negb (nonempty email) then
    (false, showFieldError "Please enter your email address" m)
  else if negb (test emailRegex email) then
    (false, showFieldError "Please enter a valid email address" m)
  else
    (true,
     hideFieldError
       (with_input (fun i => {| value := value i; has_error := has_error i;
                                has_success := true;
                                disabled := disabled i |}) m)).

Definition setLoadingState (b : bool) (m : Manager) : Manager :=
  {| emailInput := {| value := value (emailInput m);
                      has_error := has_error (emailInput m);
                      has_success := has_success (emailInput m);
                      disabled := b |};
     submitBtn := {| loading := b; btn_disabled := b;
                     aria_busy := Some (if b then "true" else "false") |};
     email_error := email_error m; success_message := success_message m;
     global_error_message := global_error_message m;
     live_region := live_region m; isSubmitting := b;
     tracked := tracked m |}.

Definition showSuccessMessage (message : string) (m : Manager) : Manager :=
  announceToScreenReader message
    {| emailInput := emailInput m; submitBtn := submitBtn m;
       email_error := email_error m;
       success_message := say message (success_message m);
       global_error_message := global_error_message m;
       live_region := live_region m; isSubmitting := isSubmitting m;
       tracked := tracked m |}.

Definition showErrorMessage (message : string) (m : Manager) : Manager :=
  announceToScreenReader message
    {| emailInput := emailInput m; submitBtn := submitBtn m;
       email_error := email_error m; success_message := success_message m;
       global_error_message := say message (global_error_message m);
       live_region := live_region m; isSubmitting := isSubmitting m;
       tracked := tracked m |}.

Definition resetForm (m : Manager) : Manager :=
  hideFieldError
    (with_input (fun i => {| value := ""; has_error := false;
                             has_success := false;
                             disabled := disabled i |}) m).

Definition trackEvent (eventName data : string) (m : Manager) : Manager :=
  {| emailInput := emailInput m; submitBtn := submitBtn m;
     email_error := email_error m; success_message := success_message m;
     global_error_message := global_error_message m;
     live_region := live_region m; isSubmitting := isSubmitting m;
     tracked := tracked m ++ [(eventName, data)] |}.

(** Truthiness of a value decoded from JSON. *)
Definition truthy (v : option json) : bool :=
  match v with
  | None | Some JNull => false
  | Some (JBool b) => b
  | Some (JNum z) => negb (Z.eqb z 0)
  | Some (JStr s) => nonempty s
  | Some (JArr _) | Some (JObj _) => true
  end.

Section Handlers.

(** The platform's conversion of a value that is not a string to a string,
    and the message of the TypeError raised by reading a property of
    [null]. *)
Variable to_string : json -> string.
Variable null_error : string.

Definition text_of (v : json) : string :=
  match v with
  | JStr s => s
  | _ => to_string v
  end.

(** [v || fallback], as text *)
Definition or_text (v : option json) (fallback : string) : string :=
  match v with
  | Some x => if truthy v then text_of x else fallback
  | None => fallback
  end.

(** [error.message || fallback] *)
Definition or_message (message fallback : string) : string :=
  if nonempty message then message else fallback.

(** The [catch] and [finally] blocks of [handleSubmit]. *)
Definition failed (message : string) (m : Manager) : Manager :=
  let m := showErrorMessage
             (or_message message "Something went wrong. Please try again.") m in
  let m := trackEvent "waitlist_join_error" message m in
  setLoadingState false m.

(** [handleSubmit] up to the request: [Some email] when one is sent. *)
Definition handleSubmit_begin (m : Manager) : option string * Manager :=
  if isSubmitting m then (None, m)
  else
    let email := js_trim (value (emailInput m)) in
    let (valid, m) := validateEmail email m in
    if negb valid then (None, m)
    else (Some email, setLoadingState true m).

(** [handleSubmit] from the moment the request settles. *)
Definition handleSubmit_settle (email : string) (r : Widget.settled)
  (m : Manager) : Manager :=
  match r with
  | Widget.Rejected message => failed message m
  | Widget.Resolved JNull => failed null_error m
  | Widget.Resolved response =>
      if truthy (index response "success") then
        let m := showSuccessMessage
                   (or_text (index response "message")
                            "Successfully joined the waitlist!") m in
        let m := resetForm m in
        let m := trackEvent "waitlist_join_success" email m in
        setLoadingState false m
      else
        failed (or_text (index response "message") "Failed to join waitlist") m
  end.

(** [handleSubmit] with nothing else happening while the request is out.
    [submit] is the [submitToWaitlist] of the script at hand. *)
Definition handleSubmit
  (submit : string -> Widget.LocalStorage -> Widget.settled * Widget.LocalStorage)
  (m : Manager) (ls : Widget.LocalStorage) : Manager * Widget.LocalStorage :=
  match handleSubmit_begin m with
  | (None, m) => (m, ls)
  | (Some email, m) =>
      let (r, ls) := submit email ls in
      (handleSubmit_settle email r m, ls)
  end.

End Handlers.

(** [submitToWaitlist] of part_003, for one outcome of the request and one
    clock. *)
Definition submit_with_fallback (net : Widget.fetched) (t_meta t_result : string)
  (email : string) (ls : Widget.LocalStorage)
  : Widget.settled * Widget.LocalStorage :=
  Widget.submitToWaitlist email net t_meta t_result ls.

(** [submitToWaitlist] of assets/js/waitlist.js: no fallback.  [parse_error]
    is the message [response.json()] rejects with. *)
Definition submit_plain (parse_error : string) (net : Widget.fetched)
  (email : string) (ls : Widget.LocalStorage)
  : Widget.settled * Widget.LocalStorage :=
  match net with
  | Widget.NetworkError message => (Widget.Rejected message, ls)
  | Widget.HttpResponse status payload =>
      if negb (Widget.ok status) then
        (Widget.Rejected ("HTTP error! status: " ++ decimal (Z.of_nat status)), ls)
      else match payload with
           | Some result => (Widget.Resolved result, ls)
           | None => (Widget.Rejected parse_error, ls)
           end
  end.

(** What [fetch] yields for an answer of the endpoint: its status, and its
    body when there is one. *)
Definition http_of (st : State) : Widget.fetched :=
  Widget.HttpResponse (code st)
    (match body st with
     | [v] => Some v
     | _ => None
     end).

(** The request [submitToWaitlist] sends for an email; [iso] is the reading
    of [new Date().toISOString()]. *)
Definition payload_of (email iso : string) : json :=
  JObj [("email", JStr email); ("timestamp", JStr iso);
        ("source", JStr "landing_page")].

(** A page with every element present. *)
Definition blank (v : string) : Manager :=
  {| emailInput := {| value := v; has_error := false; has_success := false;
                      disabled := false |};
     submitBtn := {| loading := false; btn_disabled := false;
                     aria_busy := None |};
     email_error := Some {| textContent := ""; show := false |};
     success_message := Some {| textContent := ""; show := false |};
     global_error_message := Some {| textContent := ""; show := false |};
     live_region := None; isSubmitting := false; tracked := [] |}.

End Form.

(** ** The endpoint, [api/waitlist.php] *)
Section Endpoint.

(** [filter_var(_, FILTER_VALIDATE_EMAIL)], [filter_var(_, FILTER_VALIDATE_IP)]
    and [str_getcsv] are the platform's; a null field of a row is [None]. *)
Variable validate_email : string -> bool.
Variable validate_ip : string -> bool.
Variable str_getcsv : string -> list (option string).

Definition failure (msg : string) : json :=
  JObj [("success", JBool false); ("message", JStr msg)].

Definition already_message : string :=
  "You're already on the waitlist! We'll notify you when Kenz Tasks launches.".

Definition welcome_message : string :=
  "Welcome to the waitlist! We'll notify you when Kenz Tasks launches.".

Definition already_response : json :=
  JObj [("success", JBool true); ("message", JStr already_message);
        ("alreadyExists", JBool true)].

Definition welcome_response (waitlistCount : Z) (timestamp : string) : json :=
  JObj [("success", JBool true); ("message", JStr welcome_message);
        ("waitlistPosition", JNum waitlistCount);
        ("timestamp", JStr timestamp)].

(** [$email = filter_var(trim($input['email']), FILTER_SANITIZE_EMAIL)] *)
Definition normalize (raw : string) : string := sanitize_email (trim raw).

(** [isset($row[0]) && $row[0] === $email] *)
Definition row_matches (email : string) (row : list (option string)) : bool :=
  match nth_error row 0 with
  | Some (Some f) => String.eqb f email
  | _ => false
  end.

(** Lines 83 to 87: the forwarded header if set, else the remote address,
    else the empty string; its first comma-separated entry; trimmed when it
    validates, the word unknown when it does not. *)
Definition ipAddress (sv : Server) : string :=
  let ip := match HTTP_X_FORWARDED_FOR sv with
            | Some h => h
            | None => or_else (REMOTE_ADDR sv) ""
            end in
  let ip := hd "" (explode COMMA ip) in
  if validate_ip (trim ip) then trim ip else "unknown".

Definition source (v : json) : string :=
  if isset v "source" then
    match index v "source" with Some s => field_string s | None => "" end
  else "landing_page".

Definition csvRow (rq : Request) (email : string) : list string :=
  [ email; now rq; source (input rq); ipAddress (server rq);
    substr0 200 (or_else (HTTP_USER_AGENT (server rq)) "") ].

(** [max(0, count($lines) - 1)] *)
Definition count_records (file : string) : Z :=
  Z.max 0 (Z.of_nat (List.length (file_lines_skip_empty file)) - 1).

(** Lines 59 to 68: the loop over the rows of the ledger. *)
Definition reject_listed (email : string) (rows : list (list (option string)))
  : Script unit :=
  foreach rows (fun row =>
    when (row_matches email row) (echo already_response ;; exit)).

(** Lines 49 to 131, the body of the [try] block. *)
Definition store (rq : Request) (email : string) : Script unit :=
  d <- is_dir ;;
  when (negb d) mkdir ;;
  ex <- file_exists ;;
  when ex (
    f <- file_get ;;
    let existingEmails := map str_getcsv (file_lines f) in
    reject_listed email existingEmails ;;
    sz <- filesize ;;
    when (N.ltb maxFileSize sz) (
      error_log "Waitlist CSV file size exceeded limit" ;;
      http_response_code 500 ;;
      echo (failure "Service temporarily unavailable") ;;
      exit)) ;;
  let timestamp := now rq in
  let row := csvRow rq email in
  file <- fopen_append ;;
  when (negb file) (throw (Exception "Unable to open waitlist file")) ;;
  sz <- filesize ;;
  when (N.eqb sz 0) (fputcsv csv_header ;; ret tt) ;;
  written <- fputcsv row ;;
  when (negb written) (throw (Exception "Unable to write to waitlist file")) ;;
  fclose ;;
  ex <- file_exists ;;
  waitlistCount <- (if ex then (f <- file_get ;; ret (count_records f))
                    else ret 0%Z) ;;
  error_log ("Waitlist signup: " ++ email ++ " from " ++ ipAddress (server rq)) ;;
  echo (welcome_response waitlistCount timestamp).

(** Lines 133 to 140, the [catch] block. *)
Definition recover (msg : string) : Script unit :=
  error_log ("Waitlist API error: " ++ msg) ;;
  http_response_code 500 ;;
  echo (failure "Something went wrong. Please try again later.").

(** The whole script.  The four [header] calls of lines 8 to 11 only set
    response headers and are left out. *)
Definition waitlist (rq : Request) : Script unit :=
  when (String.eqb (REQUEST_METHOD (server rq)) "OPTIONS") (
    http_response_code 200 ;;
    exit) ;;
  when (negb (String.eqb (REQUEST_METHOD (server rq)) "POST")) (
    http_response_code 405 ;;
    echo (failure "Method not allowed") ;;
    exit) ;;
  when (php_not (input rq) || negb (isset (input rq) "email")) (
    http_response_code 400 ;;
    echo (failure "Email is required") ;;
    exit) ;;
  raw <- match index (input rq) "email" with
         | Some v =>
             match scalar_string v with
             | Some s => ret s
             | None => throw (TypeError "trim(): Argument #1 ($string) must be of type string, array given")
             end
         | None => ret ""
         end ;;
  let email := normalize raw in
  when (negb (validate_email email)) (
    http_response_code 400 ;;
    echo (failure "Invalid email format") ;;
    exit) ;;
  try_catch (store rq email) recover.

(** Serving one request on a disk: the script runs from a fresh response;
    an uncaught error ends it with status 500. *)
Definition serve (rq : Request) (d : Disk) : State :=
  match waitlist rq (initial d) with
  | (Thrown _, st) =>
      {| disk := disk st; ops := ops st; log := log st;
         code := 500; body := body st |}
  | (_, st) => st
  end.

(** The duplicate check of lines 57 to 68, as a predicate on the disk. *)
Definition listed (email : string) (d : Disk) : bool :=
  match csv d with
  | Some f => existsb (row_matches email) (map str_getcsv (file_lines f))
  | None => false
  end.

(** The record count of lines 116 to 120, on any disk. *)
Definition ledger_count (d : Disk) : Z :=
  match csv d with
  | Some f => count_records f
  | None => 0%Z
  end.

(** A field of a response object. *)
Definition field (k : string) (st : State) : option json :=
  match body st with
  | [v] => index v k
  | _ => None
  end.

(** The string handed to [trim] on line 36, for a request that gets there. *)
Definition posted_email (rq : Request) : option string :=
  if String.eqb (REQUEST_METHOD (server rq)) "POST"
     && negb (php_not (input rq)) && isset (input rq) "email"
  then match index (input rq) "email" with
       | Some v => scalar_string v
       | None => None
       end
  else None.

(** What the ledger holds once [row] is appended: the header goes first into
    an empty file. *)
Definition appended (d : Disk) (row : list string) : string :=
  (if N.eqb (strlen (content d)) 0
   then content d ++ fputcsv_line csv_header
   else content d) ++ fputcsv_line row.

(** Requests served one after the other, each on the disk the one before
    left: the answers, and the disk at the end. *)
Fixpoint serve_each (rqs : list Request) (d : Disk) : list State :=
  match rqs with
  | [] => []
  | rq :: r => serve rq d :: serve_each r (disk (serve rq d))
  end.

Definition disk_after (rqs : list Request) (d : Disk) : Disk :=
  fold_left (fun d rq => disk (serve rq d)) rqs d.

(** The normalized email of a request that carries one. *)
Definition email_of (rq : Request) : option string :=
  option_map normalize (posted_email rq).

(** The row an accepted request appends. *)
Definition row_of (rq : Request) : list string :=
  csvRow rq (match email_of rq with Some e => e | None => "" end).

(** A request that carries a valid email, with a one-line row, which is not
    the word email. *)
Definition plain_signup (rq : Request) : Prop :=
  exists raw,
    posted_email rq = Some raw
    /\ validate_email (normalize raw) = true
    /\ one_line (csvRow rq (normalize raw)) = true
    /\ normalize raw <> "email".

(** ** Facts about the built-ins *)

Lemma append_assoc (a b c : string) : (a ++ b) ++ c = a ++ (b ++ c).
Proof. induction a as [|x a IH]; simpl; congruence. Qed.

Lemma append_empty_r (s : string) : s ++ "" = s.
Proof. induction s as [|c s IH]; simpl; congruence. Qed.

Lemma contains_cons x c s :
  contains x (String c s) = Ascii.eqb x c || contains x s.
Proof. reflexivity. Qed.

Lemma contains_append x a b :
  contains x (a ++ b) = contains x a || contains x b.
Proof.
  induction a as [|c a IH]; simpl; trivial.
  rewrite !contains_cons, IH. apply orb_assoc.
Qed.

Lemma file_lines_nonempty c r : file_lines (String c r) <> [].
Proof.
  simpl. destruct (Ascii.eqb c LF); try discriminate.
  destruct (file_lines r); discriminate.
Qed.

Lemma ends_lf_cons c a :
  ends_lf (String c a) = true ->
  (a = "" /\ Ascii.eqb c LF = true) \/ (a <> "" /\ ends_lf a = true).
Proof.
  destruct a as [|c' a']; simpl; intros H; [left | right]; split;
    trivial; discriminate.
Qed.

(** Appending to a file that ends with a line feed adds lines and changes
    none. *)
Lemma file_lines_app a b :
  ends_lf a = true ->
  file_lines (a ++ b) = (file_lines a ++ file_lines b)%list.
Proof.
  induction a as [|c a IH]; try discriminate.
  intros H. apply ends_lf_cons in H as [[-> Hc] | [Hne Ha]]; simpl.
  - now rewrite Hc.
  - rewrite (IH Ha). destruct (Ascii.eqb c LF); trivial.
    destruct a as [|c' a']; [now elim Hne|].
    destruct (file_lines (String c' a')) as [|l ls] eqn:E; trivial.
    now elim (file_lines_nonempty c' a').
Qed.

Lemma file_lines_one_line l :
  contains LF l = false ->
  file_lines (l ++ String LF "") = [l ++ String LF ""].
Proof.
  induction l as [|c l IH]; trivial.
  rewrite contains_cons. intros H. apply orb_false_elim in H as [Hc Hl].
  simpl. rewrite Ascii.eqb_sym, Hc, (IH Hl). reflexivity.
Qed.

(** The first line of a file that starts with [e,] starts with [e,]. *)
Lemma file_lines_first e t :
  contains LF e = false ->
  exists t1 more, file_lines (e ++ String COMMA t) = (e ++ String COMMA t1) :: more.
Proof.
  induction e as [|c e IH]; intros H.
  - simpl. destruct (file_lines t) as [|l ls]; eauto.
  - rewrite contains_cons in H. apply orb_false_elim in H as [Hc He].
    destruct (IH He) as (t1 & more & E).
    simpl. rewrite Ascii.eqb_sym, Hc, E. eauto.
Qed.

Lemma ends_lf_append a l : ends_lf (a ++ l ++ String LF "") = true.
Proof.
  induction a as [|c a IH]; simpl.
  - induction l as [|x l IHl]; trivial.
    simpl. destruct (l ++ String LF "") eqn:E; trivial.
    destruct l; discriminate.
  - destruct (a ++ l ++ String LF "") eqn:E; trivial.
    destruct a; destruct l; discriminate.
Qed.

Lemma ends_lf_app a b : ends_lf b = true -> ends_lf (a ++ b) = true.
Proof.
  intros H. induction a as [|c a IH]; trivial.
  simpl. destruct (a ++ b) eqn:E; trivial.
  destruct a; [|discriminate]. simpl in E. subst b. discriminate.
Qed.

Lemma starts_with_spec p s :
  starts_with p s = true <-> exists r, s = p ++ r.
Proof.
  revert s. induction p as [|a p IH]; intros s; simpl.
  - split; eauto.
  - destruct s as [|b s].
    + split; [discriminate|]. intros [r E]. discriminate.
    + rewrite andb_true_iff, IH. split.
      * intros [Hab [r ->]]. apply Ascii.eqb_eq in Hab as ->. eauto.
      * intros [r E]. injection E as -> ->. rewrite Ascii.eqb_refl. eauto.
Qed.

(** A line with a byte that is no line ending is not blank. *)
Lemma chomp_nonempty x s :
  contains x s = true -> Ascii.eqb x LF = false -> Ascii.eqb x CR = false ->
  nonempty (chomp s) = true.
Proof.
  intros H Hlf Hcr. destruct s as [|c [|c2 [|c3 r]]]; try discriminate.
  - rewrite contains_cons in H. simpl in H. rewrite orb_false_r in H.
    apply Ascii.eqb_eq in H as <-. simpl. now rewrite Hlf, Hcr.
  - cbn [chomp]. destruct (Ascii.eqb c CR && Ascii.eqb c2 LF) eqn:E; trivial.
    apply andb_true_iff in E as [Ec Ec2].
    apply Ascii.eqb_eq in Ec as ->. apply Ascii.eqb_eq in Ec2 as ->.
    rewrite !contains_cons in H. simpl in H.
    rewrite Hlf, Hcr in H. discriminate.
  - reflexivity.
Qed.

(** [fputcsv] adds no line feed of its own inside a line. *)
Lemma enclose_body_one_line esc f :
  contains LF f = false -> contains LF (enclose_body esc f) = false.
Proof.
  revert esc. induction f as [|c f IH]; intros esc H; trivial.
  rewrite contains_cons in H. apply orb_false_elim in H as [Hc Hf].
  cbn [enclose_body].
  destruct (Ascii.eqb c BACKSLASH);
    [|destruct (negb esc && Ascii.eqb c DQUOTE)];
    rewrite ?contains_cons, Hc, (IH _ Hf); trivial.
Qed.

Lemma csv_field_one_line f :
  contains LF f = false -> contains LF (csv_field f) = false.
Proof.
  intros H. unfold csv_field. destruct (needs_enclosure f); trivial.
  rewrite contains_cons. now rewrite enclose_body_one_line.
Qed.

Lemma csv_join_one_line fs :
  one_line fs = true -> contains LF (csv_join fs) = false.
Proof.
  induction fs as [|f fs IH]; trivial.
  simpl. intros H. apply andb_true_iff in H as [Hf Hfs].
  apply negb_true_iff in Hf.
  destruct fs as [|g fs]; [now apply csv_field_one_line|].
  rewrite contains_append, contains_cons, (csv_field_one_line _ Hf), (IH Hfs).
  reflexivity.
Qed.

Lemma csv_join_comma f g fs : contains COMMA (csv_join (f :: g :: fs)) = true.
Proof.
  cbn [csv_join]. rewrite contains_append, contains_cons.
  simpl. apply orb_true_r.
Qed.

(** Sanitized emails are made of email bytes, none of which [fputcsv]
    encloses or a line ends with. *)
Lemma email_chars_sanitize s : email_chars (sanitize_email s) = true.
Proof.
  unfold email_chars, sanitize_email.
  induction s as [|c s IH]; trivial.
  simpl. destruct (is_email_char c) eqn:E; trivial.
  simpl. now rewrite E.
Qed.

Lemma email_char_plain c :
  is_email_char c = true ->
  Ascii.eqb COMMA c = false /\ Ascii.eqb DQUOTE c = false
  /\ Ascii.eqb BACKSLASH c = false /\ Ascii.eqb LF c = false
  /\ Ascii.eqb CR c = false /\ Ascii.eqb TAB c = false
  /\ Ascii.eqb SP c = false.
Proof.
  destruct c as [[] [] [] [] [] [] [] []]; vm_compute; intros H;
    repeat split; trivial; discriminate.
Qed.

Lemma email_chars_contains x e :
  (forall c, is_email_char c = true -> Ascii.eqb x c = false) ->
  email_chars e = true -> contains x e = false.
Proof.
  intros Hx. unfold email_chars.
  induction e as [|c e IH]; trivial.
  simpl. intros H. apply andb_true_iff in H as [Hc He].
  rewrite contains_cons, (Hx _ Hc), (IH He). reflexivity.
Qed.

Lemma email_chars_one_line e : email_chars e = true -> contains LF e = false.
Proof. apply email_chars_contains. intros c H. apply (email_char_plain c H). Qed.

Lemma email_chars_bare e : email_chars e = true -> csv_field e = e.
Proof.
  intros H. unfold csv_field, needs_enclosure.
  rewrite !(fun x Hx => email_chars_contains x e Hx H); trivial;
    intros c Hc; apply (email_char_plain c Hc).
Qed.

Lemma strlen_from_length acc s :
  strlen_from acc s = (acc + N.of_nat (String.length s))%N.
Proof.
  revert acc. induction s as [|c s IH]; intros acc; simpl String.length.
  - simpl. lia.
  - cbn [strlen_from]. rewrite IH. lia.
Qed.

Lemma strlen_append a b : strlen (a ++ b) = (strlen a + strlen b)%N.
Proof.
  unfold strlen. rewrite !strlen_from_length.
  induction a as [|c a IH]; simpl String.length; lia.
Qed.

Lemma strlen_zero s : N.eqb (strlen s) 0 = negb (nonempty s).
Proof.
  unfold strlen. rewrite strlen_from_length.
  destruct s as [|c s]; reflexivity.
Qed.

Lemma explode_first d h :
  exists first rest,
    h = first ++ rest /\ contains d first = false
    /\ (rest = "" \/ exists r, rest = String d r)
    /\ hd "" (explode d h) = first.
Proof.
  induction h as [|c h (first & rest & E & Hf & Hr & Hh)].
  - exists "", "". repeat split; auto.
  - simpl. destruct (Ascii.eqb_spec c d) as [->|Hcd].
    + exists "", (String d h). repeat split; eauto.
    + exists (String c first), rest. rewrite contains_cons, Hf, orb_false_r.
      repeat split; trivial.
      * simpl. now rewrite <- E.
      * apply Ascii.eqb_neq. congruence.
      * destruct (explode d h) as [|p ps]; simpl in *; congruence.
Qed.

Lemma explode_whole d a : contains d a = false -> hd "" (explode d a) = a.
Proof.
  induction a as [|c a IH]; trivial.
  rewrite contains_cons. intros H. apply orb_false_elim in H as [Hc Ha].
  simpl. rewrite Ascii.eqb_sym, Hc. specialize (IH Ha).
  destruct (explode d a) as [|p ps]; simpl in *; congruence.
Qed.

Lemma substr0_prefix n s : exists tail, s = substr0 n s ++ tail.
Proof.
  revert s. induction n as [|n IH]; intros s; [now exists s|].
  destruct s as [|c s]; [now exists ""|].
  destruct (IH s) as [tail E]. exists tail. simpl. now rewrite <- E.
Qed.

Lemma substr0_length n s : (String.length (substr0 n s) <= n)%nat.
Proof.
  revert s. induction n as [|n IH]; intros s; [simpl; lia|].
  destruct s as [|c s]; simpl; [lia|]. specialize (IH s). lia.
Qed.

Lemma substr0_short n s : (String.length s <= n)%nat -> substr0 n s = s.
Proof.
  revert s. induction n as [|n IH]; intros [|c s]; simpl; trivial; intros H.
  - lia.
  - rewrite IH; trivial. lia.
Qed.

Lemma substr0_length_min n s :
  String.length (substr0 n s) = Nat.min (String.length s) n.
Proof.
  revert s. induction n as [|n IH]; intros [|c s]; simpl; trivial.
  now rewrite IH.
Qed.

(** Two prefixes of one string that have the same length are equal. *)
Lemma prefix_unique (a b t u : string) :
  a ++ t = b ++ u -> String.length a = String.length b -> a = b.
Proof.
  revert b. induction a as [|c a IH]; intros [|c' b]; simpl; trivial;
    try discriminate.
  intros E L. injection E as -> E. injection L as L. f_equal. now apply IH.
Qed.

(** ** The ledger after an append *)

Lemma header_line_lines :
  file_lines (fputcsv_line csv_header) = [fputcsv_line csv_header].
Proof. reflexivity. Qed.

Lemma row_line_ends_lf fs : ends_lf (fputcsv_line fs) = true.
Proof. unfold fputcsv_line. apply (ends_lf_append "" (csv_join fs)). Qed.

Lemma ledger_ok_ends f : ledger_ok f = true -> f = "" \/ ends_lf f = true.
Proof.
  unfold ledger_ok. destruct f as [|c f]; [now left|].
  simpl negb. rewrite orb_false_l, andb_true_iff. intros [_ H]. now right.
Qed.

Lemma appended_lines d row :
  ledger_ok (content d) = true ->
  file_lines (appended d row)
  = (file_lines (content d)
     ++ (if nonempty (content d) then [] else [fputcsv_line csv_header])
     ++ file_lines (fputcsv_line row))%list.
Proof.
  intros Hok. unfold appended. rewrite strlen_zero.
  destruct (ledger_ok_ends _ Hok) as [-> | He].
  - simpl negb. cbv iota. simpl nonempty. cbv iota.
    change ("" ++ fputcsv_line csv_header) with (fputcsv_line csv_header).
    rewrite file_lines_app by apply row_line_ends_lf.
    now rewrite header_line_lines.
  - destruct (content d) as [|c f]; [discriminate|].
    simpl negb. simpl nonempty. cbv iota.
    now rewrite file_lines_app.
Qed.

Lemma appended_ok d row :
  ledger_ok (content d) = true -> ledger_ok (appended d row) = true.
Proof.
  intros Hok. unfold appended. rewrite strlen_zero.
  destruct (content d) as [|c f] eqn:E.
  - simpl negb. cbv iota.
    change ("" ++ fputcsv_line csv_header) with (fputcsv_line csv_header).
    unfold ledger_ok. apply orb_true_iff. right. apply andb_true_iff. split.
    + apply starts_with_spec. eauto.
    + unfold fputcsv_line at 2. apply ends_lf_append.
  - simpl negb. cbv iota. unfold ledger_ok in *.
    simpl negb in Hok. rewrite orb_false_l in Hok.
    apply andb_true_iff in Hok as [Hs _].
    apply orb_true_iff. right. apply andb_true_iff. split.
    + apply starts_with_spec in Hs as [r ->]. apply starts_with_spec.
      rewrite append_assoc. eauto.
    + unfold fputcsv_line. apply ends_lf_append.
Qed.

(** An append makes the ledger longer. *)
Lemma appended_longer d row :
  (strlen (content d) < strlen (appended d row))%N.
Proof.
  unfold appended, fputcsv_line.
  destruct (N.eqb (strlen (content d)) 0); rewrite !strlen_append;
    change (strlen (String LF "")) with 1%N; lia.
Qed.

Lemma appended_differs d row : Some (appended d row) <> csv d.
Proof.
  intros E. pose proof (appended_longer d row) as H.
  unfold content in H at 1. rewrite <- E in H. lia.
Qed.

(** A row without line feeds in its fields is one non-blank line. *)
Lemma row_line_lines f g fs :
  one_line (f :: g :: fs) = true ->
  file_lines (fputcsv_line (f :: g :: fs)) = [fputcsv_line (f :: g :: fs)]
  /\ nonempty (line_text (fputcsv_line (f :: g :: fs))) = true.
Proof.
  intros H. split.
  - apply file_lines_one_line. now apply csv_join_one_line.
  - unfold line_text. rewrite row_line_ends_lf.
    apply (chomp_nonempty COMMA); trivial.
    unfold fputcsv_line. rewrite contains_append, csv_join_comma. reflexivity.
Qed.

Lemma ledger_ok_counts f :
  ledger_ok f = true -> nonempty f = true ->
  (1 <= List.length (file_lines_skip_empty f))%nat.
Proof.
  unfold ledger_ok. intros H Hn. rewrite Hn in H. cbn [negb orb] in H.
  apply andb_true_iff in H as [Hs _].
  apply starts_with_spec in Hs as [r ->].
  unfold file_lines_skip_empty.
  rewrite file_lines_app by apply row_line_ends_lf.
  rewrite header_line_lines. simpl. lia.
Qed.

(** Appending a one-line row to a ledger adds one to its record count. *)
Lemma appended_count d f g fs :
  ledger_ok (content d) = true ->
  one_line (f :: g :: fs) = true ->
  count_records (appended d (f :: g :: fs)) = (1 + count_records (content d))%Z.
Proof.
  intros Hok Hrow. unfold count_records, file_lines_skip_empty.
  rewrite (appended_lines _ _ Hok).
  destruct (row_line_lines _ _ _ Hrow) as [-> Hne].
  rewrite !map_app, !filter_app, !length_app.
  cbn [map filter]. rewrite Hne. cbn [List.length].
  destruct (nonempty (content d)) eqn:En.
  - pose proof (ledger_ok_counts _ Hok En) as Hc.
    unfold file_lines_skip_empty in Hc. cbn [map filter List.length]. lia.
  - destruct (content d); [|discriminate]. simpl. lia.
Qed.

(** ** The records of a ledger *)

Lemma ledger_of_nonempty rows : nonempty (ledger_of rows) = true.
Proof. reflexivity. Qed.

Lemma rows_text_snoc rows row :
  rows_text (rows ++ [row]) = rows_text rows ++ fputcsv_line row.
Proof.
  induction rows as [|r rows IH]; simpl.
  - apply append_empty_r.
  - now rewrite IH, append_assoc.
Qed.

Lemma ledger_of_snoc rows row :
  ledger_of (rows ++ [row]) = ledger_of rows ++ fputcsv_line row.
Proof. unfold ledger_of. now rewrite rows_text_snoc, append_assoc. Qed.

Lemma ledger_count_content d : ledger_count d = count_records (content d).
Proof. unfold ledger_count, content. destruct (csv d); reflexivity. Qed.

(** The ledger of [rows] with [row] appended by the endpoint is the ledger
    of [rows ++ [row]]. *)
Lemma appended_ledger_of d rows row :
  content d = ledger_of rows ->
  appended d row = ledger_of (rows ++ [row]).
Proof.
  intros E. unfold appended. rewrite strlen_zero, E, ledger_of_nonempty.
  simpl negb. cbv iota. now rewrite ledger_of_snoc.
Qed.

(** The ledger of one-line records is well formed, and the count of lines
    116 to 120 is the number of its records. *)
Lemma ledger_of_count rows :
  forallb one_line_record rows = true ->
  ledger_ok (ledger_of rows) = true
  /\ count_records (ledger_of rows) = Z.of_nat (List.length rows).
Proof.
  induction rows as [|row rows IH] using rev_ind; intros H.
  - split; reflexivity.
  - rewrite forallb_app in H. apply andb_true_iff in H as [Hrows Hrow].
    cbn [forallb] in Hrow. rewrite andb_true_r in Hrow.
    destruct (IH Hrows) as [Hok Hcount].
    destruct row as [|f [|g fs]]; try discriminate. cbn [one_line_record] in Hrow.
    set (d := {| csv := Some (ledger_of rows); data_dir := true;
                 fopen_ok := true; write_ok := true |}).
    assert (E : content d = ledger_of rows) by reflexivity.
    rewrite <- (appended_ledger_of d rows _ E).
    rewrite <- E in Hok, Hcount. split.
    + now apply appended_ok.
    + rewrite (appended_count _ _ _ _ Hok Hrow), Hcount, length_app.
      cbn [List.length]. lia.
Qed.

Lemma holds_inv d rows :
  holds d rows = true ->
  content d = ledger_of rows \/ (rows = [] /\ content d = "").
Proof.
  unfold holds. intros H. apply orb_true_iff in H as [H | H].
  - left. now apply String.eqb_eq.
  - right. destruct rows; [|discriminate].
    destruct (content d); [now split | discriminate].
Qed.

(** A ledger that holds one-line records is well formed and counts them. *)
Lemma holds_count d rows :
  holds d rows = true ->
  forallb one_line_record rows = true ->
  ledger_ok (content d) = true
  /\ ledger_count d = Z.of_nat (List.length rows).
Proof.
  intros H Hrows. rewrite ledger_count_content.
  destruct (holds_inv _ _ H) as [-> | [-> ->]].
  - now apply ledger_of_count.
  - split; reflexivity.
Qed.

(** After an append the ledger holds one record more. *)
Lemma holds_step d d1 rows row :
  holds d rows = true ->
  content d1 = appended d row ->
  holds d1 (rows ++ [row]) = true.
Proof.
  intros H E. unfold holds. apply orb_true_iff. left. apply String.eqb_eq.
  rewrite E. destruct (holds_inv _ _ H) as [Hc | [-> Hc]].
  - now apply appended_ledger_of.
  - unfold appended. rewrite Hc. cbn [app]. unfold ledger_of. cbn [rows_text].
    change (N.eqb (strlen "") 0) with true. cbv iota.
    now rewrite append_empty_r.
Qed.

(** ** Properties of the endpoint *)

Lemma posted_email_inv rq raw :
  posted_email rq = Some raw ->
  String.eqb (REQUEST_METHOD (server rq)) "POST" = true
  /\ php_not (input rq) = false
  /\ isset (input rq) "email" = true
  /\ exists v, index (input rq) "email" = Some v /\ scalar_string v = Some raw.
Proof.
  unfold posted_email.
  destruct (String.eqb (REQUEST_METHOD (server rq)) "POST"); simpl; try discriminate.
  destruct (php_not (input rq)); simpl; try discriminate.
  destruct (isset (input rq) "email"); simpl; try discriminate.
  destruct (index (input rq) "email") as [v|]; try discriminate.
  intros H. repeat split; trivial. now exists v.
Qed.

(** The loop of lines 59 to 68 stops at the first matching row. *)
Lemma reject_listed_run email (rows : list (list (option string))) st :
  reject_listed email rows st
  = if existsb (row_matches email) rows
    then (Exited, {| disk := disk st; ops := ops st; log := log st;
                     code := code st; body := body st ++ [already_response] |})
    else (Val tt, st).
Proof.
  unfold reject_listed.
  induction rows as [|row rows IH]; simpl; trivial.
  unfold bind at 1, when at 1.
  destruct (row_matches email row); simpl; trivial.
Qed.

(** [script] runs the monadic operations of a goal, leaving the string
    functions and the filters alone. *)
Ltac script :=
  cbv beta iota zeta delta
    [store recover bind when ret exit throw try_catch
     http_response_code echo error_log is_dir mkdir file_exists file_get
     filesize fopen_append fputcsv fclose upd_disk record_op initial content
     disk ops log code body csv data_dir fopen_ok write_ok
     fst snd negb app].

(** A request that carries an email runs lines 36 to 43 and then the
    [try] block. *)
Lemma waitlist_posted rq raw st :
  posted_email rq = Some raw ->
  waitlist rq st =
    if validate_email (normalize raw)
    then try_catch (store rq (normalize raw)) recover st
    else (Exited, {| disk := disk st; ops := ops st; log := log st; code := 400;
                     body := body st ++ [failure "Invalid email format"] |}).
Proof.
  intros H. destruct (posted_email_inv _ _ H) as (Hm & Hn & Hi & v & Hv & Hs).
  apply String.eqb_eq in Hm.
  unfold waitlist. rewrite Hm, Hn, Hi, Hv, Hs. simpl.
  unfold bind, when, ret. simpl.
  destruct (validate_email (normalize raw)); simpl; reflexivity.
Qed.

Lemma store_listed rq email d :
  listed email d = true ->
  let st := snd (store rq email (initial d)) in
  fst (store rq email (initial d)) = Exited
  /\ csv (disk st) = csv d /\ log st = [] /\ code st = 200
  /\ body st = [already_response]
  /\ ~ In OpFilesize (ops st) /\ ~ In OpFputcsv (ops st).
Proof.
  unfold listed. destruct d as [[f|] dir fo wo]; simpl; try discriminate.
  intros H. destruct dir; script; rewrite reject_listed_run, H; script;
    repeat split; trivial; simpl; intuition discriminate.
Qed.

Lemma store_oversize rq email d f :
  csv d = Some f ->
  listed email d = false ->
  N.ltb maxFileSize (strlen f) = true ->
  let st := snd (store rq email (initial d)) in
  fst (store rq email (initial d)) = Exited
  /\ csv (disk st) = csv d
  /\ log st = ["Waitlist CSV file size exceeded limit"]
  /\ code st = 500
  /\ body st = [failure "Service temporarily unavailable"]
  /\ ~ In OpFopen (ops st) /\ ~ In OpFputcsv (ops st).
Proof.
  unfold listed. destruct d as [[g|] dir fo wo]; simpl; try discriminate.
  intros E H Hsz. injection E as ->.
  destruct dir; script; rewrite reject_listed_run, H; script; rewrite Hsz;
    repeat split; trivial; simpl; intuition discriminate.
Qed.

Lemma store_accepted rq email d :
  listed email d = false ->
  N.leb (strlen (content d)) maxFileSize = true ->
  fopen_ok d = true ->
  write_ok d = true ->
  let st := snd (store rq email (initial d)) in
  let new := appended d (csvRow rq email) in
  fst (store rq email (initial d)) = Val tt
  /\ csv (disk st) = Some new
  /\ log st = ["Waitlist signup: " ++ email ++ " from " ++ ipAddress (server rq)]
  /\ code st = 200
  /\ body st = [welcome_response (count_records new) (now rq)].
Proof.
  unfold listed, appended.
  destruct d as [[f|] dir fo wo]; simpl; intros H Hsz -> ->.
  - assert (Hlt : N.ltb maxFileSize (strlen f) = false).
    { apply N.ltb_ge. now apply N.leb_le. }
    destruct dir; script; rewrite reject_listed_run, H; script; rewrite Hlt;
      destruct (N.eqb (strlen f) 0); repeat split; trivial.
  - destruct dir; script; repeat split; trivial.
Qed.

(** When the [try] block ends without an exception, its final state is the
    state the request is served with. *)
Lemma serve_store rq raw d :
  posted_email rq = Some raw ->
  validate_email (normalize raw) = true ->
  (forall e, fst (store rq (normalize raw) (initial d)) <> Thrown e) ->
  serve rq d = snd (store rq (normalize raw) (initial d)).
Proof.
  intros Hp Hv Hn. unfold serve. rewrite (waitlist_posted _ _ _ Hp), Hv.
  unfold try_catch.
  destruct (store rq (normalize raw) (initial d)) as [[u| |e] st]; simpl in *;
    trivial.
  now elim (Hn e).
Qed.

(** C6: a request whose method is not POST is answered without any call on
    the file system and leaves the disk as it was; OPTIONS gets status 200
    and no body, every other method status 405 and the failure "Method not
    allowed". *)
Theorem non_post_is_rejected_untouched rq d :
  REQUEST_METHOD (server rq) <> "POST" ->
  let st := serve rq d in
  disk st = d /\ ops st = [] /\ log st = []
  /\ (REQUEST_METHOD (server rq) = "OPTIONS" -> code st = 200 /\ body st = [])
  /\ (REQUEST_METHOD (server rq) <> "OPTIONS" ->
        code st = 405 /\ body st = [failure "Method not allowed"]
        /\ field "success" st = Some (JBool false)).
Proof.
  intros Hm. unfold serve, waitlist.
  destruct (String.eqb_spec (REQUEST_METHOD (server rq)) "OPTIONS") as [Ho|Ho].
  - script. split; [|split; [|split; [|split]]]; trivial; easy.
  - destruct (String.eqb_spec (REQUEST_METHOD (server rq)) "POST") as [Hp|Hp].
    + now elim Hm.
    + script. split; [|split; [|split; [|split]]]; trivial; easy.
Qed.

(** X19: a POST request whose payload is absent or falsy, has no email, or
    whose email is a scalar that fails validation once trimmed and
    sanitized, gets status 400 with success=false; no call is made on the
    file system and the disk is as it was. *)
Theorem bad_email_is_400_and_writes_nothing rq d :
  REQUEST_METHOD (server rq) = "POST" ->
  (php_not (input rq) = true
   \/ isset (input rq) "email" = false
   \/ exists raw, posted_email rq = Some raw
                  /\ validate_email (normalize raw) = false) ->
  let st := serve rq d in
  code st = 400 /\ field "success" st = Some (JBool false)
  /\ disk st = d /\ ops st = [] /\ log st = [].
Proof.
  intros Hm H.
  assert (Hreq : php_not (input rq) || negb (isset (input rq) "email") = true ->
                 let st := serve rq d in
                 code st = 400 /\ field "success" st = Some (JBool false)
                 /\ disk st = d /\ ops st = [] /\ log st = []).
  { intros Hb. unfold serve, waitlist. rewrite Hm, Hb. script.
    repeat split; trivial. }
  destruct H as [Hn | [Hi | (raw & Hp & Hv)]].
  - apply Hreq. now rewrite Hn.
  - apply Hreq. rewrite Hi. apply orb_true_r.
  - unfold serve. rewrite (waitlist_posted _ _ _ Hp), Hv. script.
    repeat split; trivial.
Qed.

(** C5: an email that is an array is not answered with status 400.  The
    guards of lines 30 and 39 do not see it: it is set, and [trim] on line 36
    raises a TypeError, which is no Exception, so that the [catch] of line
    133 does not run either.  The request ends with status 500 and no body;
    nothing is written or logged by the script. *)
Theorem array_email_ends_without_an_answer items more t d :
  let rq := Sample.post (JObj (("email", JArr items) :: more)) t in
  let st := serve rq d in
  php_not (input rq) = false
  /\ isset (input rq) "email" = true
  /\ code st = 500
  /\ body st = []
  /\ field "success" st = None
  /\ disk st = d /\ ops st = [] /\ log st = [].
Proof. repeat split. Qed.

(** C10: a submission whose normalized email equals the first field of a
    ledger line is answered with status 200, success=true and
    alreadyExists=true, with no waitlistPosition and no timestamp; the file
    size is never asked for and the ledger is unchanged.  Nothing is assumed
    about the size of the ledger, so this holds above the 10 MiB bound too. *)
Theorem listed_email_succeeds_without_size_check rq raw d :
  posted_email rq = Some raw ->
  validate_email (normalize raw) = true ->
  listed (normalize raw) d = true ->
  let st := serve rq d in
  code st = 200 /\ body st = [already_response]
  /\ field "success" st = Some (JBool true)
  /\ field "alreadyExists" st = Some (JBool true)
  /\ field "waitlistPosition" st = None
  /\ field "timestamp" st = None
  /\ ~ In OpFilesize (ops st)
  /\ csv (disk st) = csv d.
Proof.
  intros Hp Hv Hl.
  destruct (store_listed rq _ _ Hl) as (Hr & Hc & _ & Hcode & Hb & Hf & _).
  cbv zeta. rewrite (serve_store _ _ _ Hp Hv).
  - unfold field. rewrite Hb. repeat split; trivial.
  - rewrite Hr. discriminate.
Qed.

(** C4, amended: a valid submission not yet listed, made while the ledger
    file is larger than 10 MiB, gets status 500 with the failure "Service
    temporarily unavailable"; one line goes to the log and the ledger is
    unchanged. *)
Theorem oversize_ledger_rejects_new_email rq raw d f :
  posted_email rq = Some raw ->
  validate_email (normalize raw) = true ->
  csv d = Some f ->
  listed (normalize raw) d = false ->
  (maxFileSize < strlen f)%N ->
  let st := serve rq d in
  code st = 500
  /\ body st = [failure "Service temporarily unavailable"]
  /\ field "success" st = Some (JBool false)
  /\ log st = ["Waitlist CSV file size exceeded limit"]
  /\ csv (disk st) = csv d.
Proof.
  intros Hp Hv Hf Hl Hsz. apply N.ltb_lt in Hsz.
  destruct (store_oversize rq _ _ _ Hf Hl Hsz) as (Hr & Hc & Hlog & Hcode & Hb & _).
  cbv zeta. rewrite (serve_store _ _ _ Hp Hv).
  - unfold field. rewrite Hb. repeat split; trivial.
  - rewrite Hr. discriminate.
Qed.

(** A valid email not yet listed, a ledger within the bound and a storage
    that can be written: the row is appended and the count is reported. *)
Lemma serve_accepted rq raw d :
  posted_email rq = Some raw ->
  validate_email (normalize raw) = true ->
  listed (normalize raw) d = false ->
  (strlen (content d) <= maxFileSize)%N ->
  fopen_ok d = true ->
  write_ok d = true ->
  let st := serve rq d in
  let new := appended d (csvRow rq (normalize raw)) in
  csv (disk st) = Some new
  /\ code st = 200
  /\ body st = [welcome_response (count_records new) (now rq)]
  /\ log st = ["Waitlist signup: " ++ normalize raw ++ " from "
                                  ++ ipAddress (server rq)].
Proof.
  intros Hp Hv Hl Hsz Hfo Hwo. apply N.leb_le in Hsz.
  destruct (store_accepted rq _ _ Hl Hsz Hfo Hwo) as (Hr & Hc & Hlog & Hcode & Hb).
  cbv zeta. rewrite (serve_store _ _ _ Hp Hv).
  - repeat split; trivial.
  - rewrite Hr. discriminate.
Qed.

(** C2, amended: a valid email not listed in a ledger that is within the
    10 MiB bound and can be opened and written is answered with status 200,
    success=true, no alreadyExists field and the timestamp; the row is
    appended, and waitlistPosition is the number of non-empty lines of the
    file after the write, less one.  When the ledger before the write holds
    n records, each of at least two fields without a line feed in them, and
    the new row has no line feed in its fields, the position is 1 + n and
    the ledger holds the n records and the new one. *)
Theorem new_email_gets_next_position rq raw d :
  posted_email rq = Some raw ->
  validate_email (normalize raw) = true ->
  listed (normalize raw) d = false ->
  (strlen (content d) <= maxFileSize)%N ->
  fopen_ok d = true ->
  write_ok d = true ->
  let st := serve rq d in
  let row := csvRow rq (normalize raw) in
  code st = 200
  /\ field "success" st = Some (JBool true)
  /\ field "alreadyExists" st = None
  /\ field "timestamp" st = Some (JStr (now rq))
  /\ content (disk st) = appended d row
  /\ field "waitlistPosition" st
     = Some (JNum (Z.max 0
                     (Z.of_nat (List.length
                                  (file_lines_skip_empty (content (disk st))))
                      - 1)))
  /\ forall rows,
       holds d rows = true ->
       forallb one_line_record rows = true ->
       one_line row = true ->
       field "waitlistPosition" st
       = Some (JNum (1 + Z.of_nat (List.length rows)))
       /\ holds (disk st) (rows ++ [row]) = true.
Proof.
  intros Hp Hv Hl Hsz Hfo Hwo.
  destruct (serve_accepted _ _ _ Hp Hv Hl Hsz Hfo Hwo) as (Hc & Hcode & Hb & _).
  cbv zeta.
  assert (Hcontent : content (disk (serve rq d))
                     = appended d (csvRow rq (normalize raw)))
    by (unfold content; now rewrite Hc).
  assert (Hpos : field "waitlistPosition" (serve rq d)
                 = Some (JNum (count_records
                                 (appended d (csvRow rq (normalize raw))))))
    by (unfold field; now rewrite Hb).
  unfold field at 1 2 3. rewrite Hb, Hcontent.
  repeat match goal with |- _ /\ _ => split end; trivial.
  intros rows Hrows Hone Hrow. split.
  - rewrite Hpos. do 2 f_equal.
    destruct (holds_count _ _ Hrows Hone) as [Hok Hcount].
    unfold csvRow in *. rewrite (appended_count _ _ _ _ Hok Hrow).
    now rewrite <- ledger_count_content, Hcount.
  - now apply (holds_step d).
Qed.

(** C7: in the row an accepted submission appends, the address is the first
    comma-separated entry of the forwarded header when that header is set
    and of the remote address otherwise, trimmed, or the word unknown when
    the trimmed entry does not validate; the agent is the first 200 bytes
    of the user-agent header: the prefix of it that is 200 bytes long, or
    all of it when it is shorter. *)
Theorem stored_address_and_agent rq raw d :
  posted_email rq = Some raw ->
  validate_email (normalize raw) = true ->
  listed (normalize raw) d = false ->
  (strlen (content d) <= maxFileSize)%N ->
  fopen_ok d = true ->
  write_ok d = true ->
  let chosen := match HTTP_X_FORWARDED_FOR (server rq) with
                | Some h => h
                | None => match REMOTE_ADDR (server rq) with
                          | Some a => a
                          | None => ""
                          end
                end in
  let ua := match HTTP_USER_AGENT (server rq) with
            | Some u => u
            | None => ""
            end in
  exists address agent,
    csv (disk (serve rq d))
    = Some (appended d [normalize raw; now rq; source (input rq); address; agent])
    /\ (exists first rest,
          chosen = first ++ rest /\ contains COMMA first = false
          /\ (rest = "" \/ exists r, rest = String COMMA r)
          /\ address = if validate_ip (trim first) then trim first
                       else "unknown")
    /\ (contains COMMA chosen = false ->
        address = if validate_ip (trim chosen) then trim chosen else "unknown")
    /\ (exists tail, ua = agent ++ tail)
    /\ (String.length agent <= 200)%nat
    /\ ((String.length ua <= 200)%nat -> agent = ua)
    /\ String.length agent = Nat.min (String.length ua) 200.
Proof.
  intros Hp Hv Hl Hsz Hfo Hwo chosen ua.
  destruct (serve_accepted _ _ _ Hp Hv Hl Hsz Hfo Hwo) as (Hc & _).
  exists (ipAddress (server rq)), (substr0 200 ua).
  split; [exact Hc|].
  assert (Hip : ipAddress (server rq)
                = if validate_ip (trim (hd "" (explode COMMA chosen)))
                  then trim (hd "" (explode COMMA chosen)) else "unknown").
  { unfold ipAddress, chosen, or_else.
    destruct (HTTP_X_FORWARDED_FOR (server rq)); trivial. }
  split; [|split; [|split; [|split; [|split]]]].
  - destruct (explode_first COMMA chosen) as (first & rest & E & Hf & Hr & Hh).
    exists first, rest. rewrite Hip, Hh. auto.
  - intros Hno. now rewrite Hip, (explode_whole _ _ Hno).
  - apply substr0_prefix.
  - apply substr0_length.
  - apply substr0_short.
  - apply substr0_length_min.
Qed.

(** ** The ledger stays well formed *)

(** The [try] block leaves the ledger as it was or appends the row. *)
Lemma store_content rq email d :
  let c := content (disk (snd (store rq email (initial d)))) in
  c = content d \/ c = appended d (csvRow rq email).
Proof.
  unfold appended.
  destruct d as [[f|] dir fo wo]; destruct dir, fo, wo; script;
    rewrite ?reject_listed_run;
    repeat match goal with
           | |- context [if ?b then _ else _] => destruct b; script
           end;
    auto.
Qed.

Lemma try_catch_disk (m : Script unit) st :
  disk (snd (try_catch m recover st)) = disk (snd (m st)).
Proof.
  unfold try_catch. destruct (m st) as [[u| |[msg|msg]] st']; reflexivity.
Qed.

(** Serving a request leaves the ledger as it was or appends one row. *)
Lemma serve_content rq d :
  content (disk (serve rq d)) = content d
  \/ exists row, content (disk (serve rq d)) = appended d row.
Proof.
  assert (Hserve : disk (serve rq d) = disk (snd (waitlist rq (initial d)))).
  { unfold serve. destruct (waitlist rq (initial d)) as [[u| |e] st]; reflexivity. }
  rewrite Hserve. destruct (posted_email rq) as [raw|] eqn:Hp.
  - rewrite (waitlist_posted _ _ _ Hp).
    destruct (validate_email (normalize raw)); [|now left].
    rewrite try_catch_disk.
    destruct (store_content rq (normalize raw) d) as [H | H]; eauto.
  - left. unfold posted_email in Hp. unfold waitlist.
    destruct (String.eqb_spec (REQUEST_METHOD (server rq)) "POST") as [Hm|Hm].
    + rewrite Hm in *. unfold isset in *.
      destruct (php_not (input rq)); [reflexivity|].
      destruct (index (input rq) "email") as [v|]; [|reflexivity].
      destruct v as [|[|]| | | |]; simpl in Hp; try discriminate; reflexivity.
    + destruct (String.eqb (REQUEST_METHOD (server rq)) "OPTIONS"); reflexivity.
Qed.

(** A missing ledger is well formed, and serving any request keeps a
    well-formed ledger well formed. *)
Lemma ledger_ok_missing d : csv d = None -> ledger_ok (content d) = true.
Proof. unfold content. now intros ->. Qed.

(** X2: a ledger that is empty or made of the header line and complete
    lines is still so after any request, whatever the request and whatever
    the storage does. *)
Lemma serve_keeps_ledger_ok rq d :
  ledger_ok (content d) = true -> ledger_ok (content (disk (serve rq d))) = true.
Proof.
  intros Hok. destruct (serve_content rq d) as [-> | [row ->]]; trivial.
  now apply appended_ok.
Qed.

(** ** Every way a request can end *)

(** [pick] proves a disjunction of conjunctions of equations that hold by
    computation or by assumption. *)
Ltac conj := repeat split; first [reflexivity | assumption].
Ltac pick := first [ solve [conj] | solve [left; conj] | right; pick ].

(** The five ways the [try] block ends: the email is listed, the ledger is
    over the bound, the file cannot be opened, the row cannot be written, or
    the row is appended. *)
Lemma store_cases rq email d :
  let r := store rq email (initial d) in
  let st := snd r in
  (fst r = Exited /\ code st = 200 /\ body st = [already_response]
   /\ log st = [] /\ csv (disk st) = csv d /\ listed email d = true)
  \/ (fst r = Exited /\ code st = 500
      /\ body st = [failure "Service temporarily unavailable"]
      /\ log st = ["Waitlist CSV file size exceeded limit"]
      /\ csv (disk st) = csv d /\ listed email d = false
      /\ N.ltb maxFileSize (strlen (content d)) = true)
  \/ (fst r = Thrown (Exception "Unable to open waitlist file")
      /\ code st = 200 /\ body st = [] /\ log st = []
      /\ csv (disk st) = csv d /\ listed email d = false
      /\ fopen_ok d = false)
  \/ (fst r = Thrown (Exception "Unable to write to waitlist file")
      /\ code st = 200 /\ body st = [] /\ log st = []
      /\ csv (disk st) = Some (content d) /\ listed email d = false
      /\ fopen_ok d = true /\ write_ok d = false)
  \/ (fst r = Val tt /\ code st = 200
      /\ body st = [welcome_response
                      (count_records (appended d (csvRow rq email))) (now rq)]
      /\ log st = ["Waitlist signup: " ++ email ++ " from "
                                      ++ ipAddress (server rq)]
      /\ csv (disk st) = Some (appended d (csvRow rq email))
      /\ listed email d = false
      /\ N.ltb maxFileSize (strlen (content d)) = false
      /\ fopen_ok d = true /\ write_ok d = true).
Proof.
  cbv zeta. destruct (store rq email (initial d)) as [r st] eqn:E.
  revert E. unfold appended, listed.
  destruct d as [[f|] dir fo wo]; destruct dir, fo, wo; script;
    rewrite ?reject_listed_run;
    repeat match goal with
           | |- context [if ?b then _ else _] => destruct b eqn:?; script
           end;
    intros E; injection E as <- <-; pick.
Qed.

Lemma recover_run msg st :
  recover msg st
  = (Val tt,
     {| disk := disk st; ops := ops st;
        log := log st ++ ["Waitlist API error: " ++ msg]; code := 500;
        body := body st
                ++ [failure "Something went wrong. Please try again later."] |}).
Proof. reflexivity. Qed.

(** The ten ways a request is answered. *)
Lemma serve_cases rq d :
  let st := serve rq d in
  (REQUEST_METHOD (server rq) = "OPTIONS"
   /\ code st = 200 /\ body st = [] /\ log st = [] /\ disk st = d)
  \/ (code st = 405 /\ body st = [failure "Method not allowed"]
      /\ log st = [] /\ disk st = d)
  \/ (code st = 400 /\ body st = [failure "Email is required"]
      /\ log st = [] /\ disk st = d)
  \/ (code st = 400 /\ body st = [failure "Invalid email format"]
      /\ log st = [] /\ disk st = d)
  \/ (posted_email rq = None
      /\ code st = 500 /\ body st = [] /\ log st = [] /\ disk st = d)
  \/ (code st = 200 /\ body st = [already_response]
      /\ log st = [] /\ csv (disk st) = csv d)
  \/ (code st = 500 /\ body st = [failure "Service temporarily unavailable"]
      /\ log st = ["Waitlist CSV file size exceeded limit"]
      /\ csv (disk st) = csv d)
  \/ (code st = 500
      /\ body st = [failure "Something went wrong. Please try again later."]
      /\ log st = ["Waitlist API error: Unable to open waitlist file"]
      /\ csv (disk st) = csv d /\ fopen_ok d = false)
  \/ (code st = 500
      /\ body st = [failure "Something went wrong. Please try again later."]
      /\ log st = ["Waitlist API error: Unable to write to waitlist file"]
      /\ csv (disk st) = Some (content d) /\ write_ok d = false)
  \/ (exists raw,
        posted_email rq = Some raw
        /\ code st = 200
        /\ body st = [welcome_response
                        (count_records
                           (appended d (csvRow rq (normalize raw))))
                        (now rq)]
        /\ log st = ["Waitlist signup: " ++ normalize raw ++ " from "
                                        ++ ipAddress (server rq)]
        /\ csv (disk st) = Some (appended d (csvRow rq (normalize raw)))).
Proof.
  destruct (posted_email rq) as [raw|] eqn:Hp.
  - unfold serve. rewrite (waitlist_posted _ _ _ Hp).
    destruct (validate_email (normalize raw)); [|script; pick].
    pose proof (store_cases rq (normalize raw) d) as H. cbv zeta in H.
    unfold try_catch.
    destruct (store rq (normalize raw) (initial d)) as [r st]. simpl in H.
    destruct H as [H | [H | [H | [H | H]]]];
      decompose [and] H; clear H; subst r.
    + do 5 right. left. auto.
    + do 6 right. left. auto.
    + do 7 right. left. rewrite recover_run. cbn [code body log disk].
      rewrite H1, H3. auto.
    + do 8 right. left. rewrite recover_run. cbn [code body log disk].
      rewrite H1, H3. auto.
    + do 9 right. exists raw. auto.
  - cbv zeta. destruct (serve rq d) as [dk o l c b] eqn:E. revert E.
    unfold posted_email in Hp. unfold serve, waitlist.
    destruct (String.eqb_spec (REQUEST_METHOD (server rq)) "POST") as [Hm|Hm].
    + rewrite Hm in *. unfold isset in *.
      destruct (php_not (input rq));
        [script; intros E; injection E as <- <- <- <- <-; pick|].
      destruct (index (input rq) "email") as [v|];
        [|script; intros E; injection E as <- <- <- <- <-; pick].
      destruct v as [|[|]| | | |]; simpl in Hp; try discriminate; script;
        intros E; injection E as <- <- <- <- <-; pick.
    + destruct (String.eqb_spec (REQUEST_METHOD (server rq)) "OPTIONS");
        script; intros E; injection E as <- <- <- <- <-; pick.
Qed.

Lemma appended_suffix d row : exists suffix, appended d row = content d ++ suffix.
Proof.
  unfold appended. destruct (N.eqb (strlen (content d)) 0).
  - rewrite append_assoc. eauto.
  - eauto.
Qed.

(** X1: serving a request never changes or removes a byte of the ledger:
    what the file held before is a prefix of what it holds after. *)
Theorem ledger_is_append_only rq d :
  exists suffix, content (disk (serve rq d)) = content d ++ suffix.
Proof.
  destruct (serve_content rq d) as [-> | [row ->]].
  - exists "". now rewrite append_empty_r.
  - apply appended_suffix.
Qed.

(** X3: the status is 200, 400, 405 or 500; a body, when there is one, is a
    single object whose success field is true exactly when the status is 200
    and whose message is a string; there is no body only for OPTIONS and
    for an email that is not a scalar. *)
Theorem every_answer_has_one_shape rq d :
  let st := serve rq d in
  (code st = 200 \/ code st = 400 \/ code st = 405 \/ code st = 500)
  /\ (body st = []
      \/ exists v m, body st = [v]
           /\ index v "success" = Some (JBool (Nat.eqb (code st) 200))
           /\ index v "message" = Some (JStr m))
  /\ (body st = [] ->
      REQUEST_METHOD (server rq) = "OPTIONS"
      \/ (code st = 500 /\ posted_email rq = None)).
Proof.
  pose proof (serve_cases rq d) as H. cbv zeta in *.
  destruct H as [H|[H|[H|[H|[H|[H|[H|[H|[H|(raw & H)]]]]]]]]];
    decompose [and] H; clear H;
    repeat match goal with
           | H : code _ = _ |- _ => rewrite H
           | H : body _ = _ |- _ => rewrite H
           end;
    (split; [tauto|]); (split; [|first [tauto | intros; discriminate]]);
    first [now left | right; eexists; eexists; repeat split; reflexivity].
Qed.

(** X4: the ledger changes only together with the welcome answer: after any
    request either the file holds what it held, or the status is 200, the
    body is the welcome object with a position and the request's timestamp,
    and the file is the old one with one row appended (the header first
    into an empty file). *)
Theorem every_write_is_acknowledged rq d :
  let st := serve rq d in
  content (disk st) = content d
  \/ (code st = 200
      /\ (exists n, body st = [welcome_response n (now rq)])
      /\ exists row, content (disk st) = appended d row).
Proof.
  pose proof (serve_cases rq d) as H. cbv zeta in *. unfold content in *.
  destruct H as [H|[H|[H|[H|[H|[H|[H|[H|[H|(raw & H)]]]]]]]]];
    decompose [and] H; clear H;
    try (left;
         repeat match goal with
                | H : disk _ = _ |- _ => rewrite H
                | H : csv _ = _ |- _ => rewrite H
                end; reflexivity).
  right. repeat match goal with
                | H : csv (disk _) = _ |- _ => rewrite H
                end.
  eauto.
Qed.

(** A caught exception is answered by the [catch] block. *)
Lemma serve_caught rq raw d msg :
  posted_email rq = Some raw ->
  validate_email (normalize raw) = true ->
  fst (store rq (normalize raw) (initial d)) = Thrown (Exception msg) ->
  serve rq d = snd (recover msg (snd (store rq (normalize raw) (initial d)))).
Proof.
  intros Hp Hv Hr. unfold serve. rewrite (waitlist_posted _ _ _ Hp), Hv.
  unfold try_catch.
  destruct (store rq (normalize raw) (initial d)) as [r st]. simpl in *.
  subst r. reflexivity.
Qed.

(** The outcome of the [try] block when the email is new and the ledger
    within the bound, by what the storage allows. *)
Lemma store_new rq email d :
  listed email d = false ->
  (strlen (content d) <= maxFileSize)%N ->
  let r := store rq email (initial d) in
  let st := snd r in
  code st = 200 /\ body st = [] /\ log st = []
  /\ ((fopen_ok d = false
       /\ fst r = Thrown (Exception "Unable to open waitlist file")
       /\ csv (disk st) = csv d)
      \/ (fopen_ok d = true /\ write_ok d = false
          /\ fst r = Thrown (Exception "Unable to write to waitlist file")
          /\ csv (disk st) = Some (content d)))
  \/ (fopen_ok d = true /\ write_ok d = true).
Proof.
  intros Hl Hsz. apply N.ltb_ge in Hsz.
  pose proof (store_cases rq email d) as H. cbv zeta in *.
  destruct H as [H | [H | [H | [H | H]]]]; decompose [and] H; clear H;
    try congruence; tauto.
Qed.

(** X5: when the file cannot be opened for appending, a new valid email is
    answered with status 500 and the generic failure; the cause goes to the
    log only, and the ledger is as it was (a missing file stays missing). *)
Theorem open_fault_is_a_generic_500 rq raw d :
  posted_email rq = Some raw ->
  validate_email (normalize raw) = true ->
  listed (normalize raw) d = false ->
  (strlen (content d) <= maxFileSize)%N ->
  fopen_ok d = false ->
  let st := serve rq d in
  code st = 500
  /\ body st = [failure "Something went wrong. Please try again later."]
  /\ log st = ["Waitlist API error: Unable to open waitlist file"]
  /\ csv (disk st) = csv d.
Proof.
  intros Hp Hv Hl Hsz Hfo.
  destruct (store_new rq _ _ Hl Hsz) as [(Hc & Hb & Hlog & H) | [H _]];
    [|congruence].
  destruct H as [(_ & Hr & Hcsv) | (H & _)]; [|congruence].
  cbv zeta. rewrite (serve_caught _ _ _ _ Hp Hv Hr), recover_run.
  cbn [snd code body log disk]. now rewrite Hb, Hlog.
Qed.

(** X6: when the file opens but cannot be written, a new valid email is
    answered with status 500 and the generic failure, one line goes to the
    log, and the file holds what it held; a missing file now exists, empty. *)
Theorem write_fault_is_a_generic_500 rq raw d :
  posted_email rq = Some raw ->
  validate_email (normalize raw) = true ->
  listed (normalize raw) d = false ->
  (strlen (content d) <= maxFileSize)%N ->
  fopen_ok d = true ->
  write_ok d = false ->
  let st := serve rq d in
  code st = 500
  /\ body st = [failure "Something went wrong. Please try again later."]
  /\ log st = ["Waitlist API error: Unable to write to waitlist file"]
  /\ csv (disk st) = Some (content d).
Proof.
  intros Hp Hv Hl Hsz Hfo Hwo.
  destruct (store_new rq _ _ Hl Hsz) as [(Hc & Hb & Hlog & H) | [_ H]];
    [|congruence].
  destruct H as [(H & _) | (_ & _ & Hr & Hcsv)]; [congruence|].
  cbv zeta. rewrite (serve_caught _ _ _ _ Hp Hv Hr), recover_run.
  cbn [snd code body log disk]. now rewrite Hb, Hlog.
Qed.

Lemma email_char_not_trimmed c : is_email_char c = true -> is_trim_char c = false.
Proof.
  destruct c as [[] [] [] [] [] [] [] []]; vm_compute; intros H;
    trivial; discriminate.
Qed.

Lemma trim_fixed s : email_chars s = true -> trim s = s.
Proof.
  unfold email_chars, trim. intros H.
  assert (Hl : ltrim s = s).
  { destruct s as [|c s]; trivial. simpl in *.
    apply andb_true_iff in H as [Hc _].
    now rewrite (email_char_not_trimmed _ Hc). }
  rewrite Hl. clear Hl.
  induction s as [|c s IH]; trivial.
  simpl in H. apply andb_true_iff in H as [Hc Hs].
  simpl. rewrite (IH Hs).
  destruct s; trivial. now rewrite (email_char_not_trimmed _ Hc).
Qed.

Lemma sanitize_fixed s : email_chars s = true -> sanitize_email s = s.
Proof.
  unfold email_chars, sanitize_email.
  induction s as [|c s IH]; trivial.
  simpl. intros H. apply andb_true_iff in H as [Hc Hs].
  now rewrite Hc, (IH Hs).
Qed.

(** X7: normalizing an email twice is normalizing it once, and a normalized
    email holds only letters, digits and the listed punctuation: the string
    the ledger stores is the string a resubmission of it is compared as. *)
Theorem normalize_is_idempotent raw :
  normalize (normalize raw) = normalize raw
  /\ email_chars (normalize raw) = true.
Proof.
  assert (H : email_chars (normalize raw) = true)
    by apply email_chars_sanitize.
  split; trivial. unfold normalize at 1.
  now rewrite (trim_fixed _ H), (sanitize_fixed _ H).
Qed.

(** ** Resubmissions

    What is assumed of [str_getcsv]: a line that starts with an unenclosed
    field made of email bytes, followed by a comma, has that field as its
    first one. *)
Hypothesis str_getcsv_first : forall e t,
  email_chars e = true ->
  nth_error (str_getcsv (e ++ String COMMA t)) 0 = Some (Some e).

Lemma row_matches_first e e' t :
  email_chars e = true ->
  row_matches e' (str_getcsv (e ++ String COMMA t)) = String.eqb e e'.
Proof.
  intros H. unfold row_matches. now rewrite (str_getcsv_first _ t H).
Qed.

Lemma row_line_first e g fs :
  email_chars e = true ->
  exists t, fputcsv_line (e :: g :: fs) = e ++ String COMMA t.
Proof.
  intros H. exists (csv_join (g :: fs) ++ String LF "").
  unfold fputcsv_line. cbn [csv_join]. rewrite (email_chars_bare _ H).
  now rewrite append_assoc.
Qed.

Lemma listed_content e d :
  listed e d = existsb (row_matches e) (map str_getcsv (file_lines (content d))).
Proof. unfold listed, content. destruct (csv d); reflexivity. Qed.

(** After an append, the email of the new row is listed. *)
Lemma listed_after_append d d' e g fs :
  ledger_ok (content d) = true ->
  email_chars e = true ->
  csv d' = Some (appended d (e :: g :: fs)) ->
  listed e d' = true.
Proof.
  intros Hok He Hc. unfold listed. rewrite Hc, (appended_lines _ _ Hok).
  rewrite !map_app, !existsb_app.
  destruct (row_line_first e g fs He) as [t ->].
  destruct (file_lines_first e t (email_chars_one_line _ He)) as (t1 & more & ->).
  cbn [map existsb]. rewrite (row_matches_first _ _ _ He), String.eqb_refl.
  cbn [orb]. now rewrite !orb_true_r.
Qed.

(** After the append of a one-line row, the listed emails are those listed
    before, the new one and, when the header was written, the word email. *)
Lemma listed_after_one_line d d' e g fs e' :
  ledger_ok (content d) = true ->
  email_chars e = true ->
  one_line (e :: g :: fs) = true ->
  csv d' = Some (appended d (e :: g :: fs)) ->
  listed e' d'
  = listed e' d
    || (negb (nonempty (content d)) && String.eqb "email" e')
    || String.eqb e e'.
Proof.
  intros Hok He Hrow Hc. rewrite (listed_content e' d).
  unfold listed. rewrite Hc, (appended_lines _ _ Hok).
  destruct (row_line_lines _ _ _ Hrow) as [-> _].
  rewrite !map_app, !existsb_app.
  destruct (row_line_first e g fs He) as [t ->].
  cbn [map existsb]. rewrite (row_matches_first _ _ _ He), orb_false_r.
  rewrite orb_assoc. f_equal. f_equal.
  destruct (nonempty (content d)); trivial.
  change (fputcsv_line csv_header)
    with ("email" ++ String COMMA
            ("timestamp,source,ip_address,user_agent" ++ String LF "")).
  cbn [map existsb negb andb].
  rewrite row_matches_first by reflexivity. apply orb_false_r.
Qed.

(** C3: once a submission has been accepted into a ledger made of the header
    and complete lines, a second submission with the same normalized email
    gets status 200, success=true and alreadyExists=true; no row is
    written, and the ledger and its record count are unchanged. *)
Theorem resubmission_is_reported_not_stored rq1 raw1 rq2 raw2 d :
  posted_email rq1 = Some raw1 ->
  validate_email (normalize raw1) = true ->
  listed (normalize raw1) d = false ->
  (strlen (content d) <= maxFileSize)%N ->
  fopen_ok d = true ->
  write_ok d = true ->
  ledger_ok (content d) = true ->
  posted_email rq2 = Some raw2 ->
  normalize raw2 = normalize raw1 ->
  let d1 := disk (serve rq1 d) in
  let st2 := serve rq2 d1 in
  code st2 = 200
  /\ field "success" st2 = Some (JBool true)
  /\ field "alreadyExists" st2 = Some (JBool true)
  /\ ~ In OpFputcsv (ops st2)
  /\ csv (disk st2) = csv d1
  /\ ledger_count (disk st2) = ledger_count d1.
Proof.
  intros Hp Hv Hl Hsz Hfo Hwo Hok Hp2 Hn d1.
  destruct (serve_accepted _ _ _ Hp Hv Hl Hsz Hfo Hwo) as (Hc & _).
  assert (Hl2 : listed (normalize raw2) d1 = true).
  { rewrite Hn. unfold csvRow in Hc.
    exact (listed_after_append d d1 _ _ _ Hok (email_chars_sanitize _) Hc). }
  rewrite <- Hn in Hv.
  destruct (store_listed rq2 _ _ Hl2) as (Hr & Hcsv & _ & Hcode & Hb & _ & Hw).
  cbv zeta. rewrite (serve_store _ _ _ Hp2 Hv).
  - unfold field, ledger_count. rewrite Hb, Hcsv. repeat split; trivial.
  - rewrite Hr. discriminate.
Qed.

(** C1, amended: the email stored for an accepted submission is the trimmed
    and sanitized email, its letter case kept, and later emails are compared
    with it byte for byte: after a one-line row has been appended to a
    ledger made of the header and complete lines, an email is listed exactly
    when it was listed before, is the stored email itself, or is the word
    email of a header written by this request. *)
Theorem email_is_stored_and_compared_verbatim rq raw d :
  posted_email rq = Some raw ->
  validate_email (normalize raw) = true ->
  listed (normalize raw) d = false ->
  (strlen (content d) <= maxFileSize)%N ->
  fopen_ok d = true ->
  write_ok d = true ->
  ledger_ok (content d) = true ->
  one_line (csvRow rq (normalize raw)) = true ->
  let d1 := disk (serve rq d) in
  (exists rest, csv d1 = Some (appended d (sanitize_email (trim raw) :: rest)))
  /\ forall e',
       listed e' d1
       = listed e' d
         || (negb (nonempty (content d)) && String.eqb "email" e')
         || String.eqb (sanitize_email (trim raw)) e'.
Proof.
  intros Hp Hv Hl Hsz Hfo Hwo Hok Hrow d1.
  destruct (serve_accepted _ _ _ Hp Hv Hl Hsz Hfo Hwo) as (Hc & _).
  split.
  - eexists. exact Hc.
  - intros e'. unfold csvRow in Hc, Hrow.
    exact (listed_after_one_line d d1 _ _ _ e' Hok
             (email_chars_sanitize _) Hrow Hc).
Qed.

(** ** Rows of more than one line *)

Lemma enclose_body_split esc p r :
  exists out esc', enclose_body esc (p ++ r) = out ++ enclose_body esc' r.
Proof.
  revert esc. induction p as [|c p IH]; intros esc.
  - exists "", esc. reflexivity.
  - cbn [append enclose_body].
    destruct (Ascii.eqb c BACKSLASH);
      [|destruct (negb esc && Ascii.eqb c DQUOTE)];
      match goal with
      | |- context [enclose_body ?e (p ++ r)] =>
          destruct (IH e) as (out & esc' & ->)
      end.
    + exists (String c out), esc'. reflexivity.
    + exists (String DQUOTE (String c out)), esc'. reflexivity.
    + exists (String c out), esc'. reflexivity.
Qed.

Lemma enclose_body_email v r :
  email_chars v = true ->
  enclose_body false (v ++ r) = v ++ enclose_body false r.
Proof.
  unfold email_chars. induction v as [|c v IH]; trivial.
  simpl. intros H. apply andb_true_iff in H as [Hc Hv].
  destruct (email_char_plain c Hc) as (_ & Hq & Hb & _).
  rewrite (Ascii.eqb_sym c BACKSLASH), Hb, (Ascii.eqb_sym c DQUOTE), Hq.
  simpl. now rewrite (IH Hv).
Qed.

(** A field with a line feed followed by [v,] is written with exactly these
    bytes after the line feed. *)
Lemma csv_field_plants p v q :
  email_chars v = true ->
  exists a b,
    csv_field (p ++ String LF (v ++ String COMMA q))
    = a ++ String LF (v ++ String COMMA b).
Proof.
  intros Hv. unfold csv_field.
  assert (Hn : needs_enclosure (p ++ String LF (v ++ String COMMA q)) = true).
  { unfold needs_enclosure.
    assert (H : contains LF (p ++ String LF (v ++ String COMMA q)) = true).
    { rewrite contains_append, contains_cons. simpl. apply orb_true_r. }
    rewrite H. now rewrite !orb_true_r. }
  rewrite Hn.
  destruct (enclose_body_split false p (String LF (v ++ String COMMA q)))
    as (out & esc' & ->).
  exists (String DQUOTE out), (enclose_body false q).
  assert (E : enclose_body esc' (String LF (v ++ String COMMA q))
              = String LF (enclose_body false (v ++ String COMMA q)))
    by (destruct esc'; reflexivity).
  rewrite E, (enclose_body_email _ _ Hv). reflexivity.
Qed.

Lemma row_line_plants e t p v q ip ua :
  email_chars v = true ->
  exists a b,
    fputcsv_line [e; t; p ++ String LF (v ++ String COMMA q); ip; ua]
    = a ++ String LF (v ++ String COMMA b).
Proof.
  intros Hv. destruct (csv_field_plants p v q Hv) as (a & b & E).
  unfold fputcsv_line. cbn [csv_join]. rewrite E.
  exists (csv_field e ++ String COMMA (csv_field t ++ String COMMA a)),
         (b ++ String COMMA (csv_field ip ++ String COMMA (csv_field ua))
            ++ String LF "").
  repeat (progress (rewrite ?append_assoc; cbn [append])). reflexivity.
Qed.

(** X8: the duplicate check reads the ledger line by line.  When an
    accepted submission carries a source with a line feed followed by an
    email and a comma, that email is listed from then on although it never
    signed up: its own later submission is answered alreadyExists=true and
    is not stored. *)
Theorem line_feed_in_source_lists_another_email rq raw d p v q rq2 raw2 :
  posted_email rq = Some raw ->
  validate_email (normalize raw) = true ->
  listed (normalize raw) d = false ->
  (strlen (content d) <= maxFileSize)%N ->
  fopen_ok d = true ->
  write_ok d = true ->
  index (input rq) "source" = Some (JStr (p ++ String LF (v ++ String COMMA q))) ->
  email_chars v = true ->
  posted_email rq2 = Some raw2 ->
  normalize raw2 = v ->
  validate_email v = true ->
  let d1 := disk (serve rq d) in
  let st2 := serve rq2 d1 in
  listed v d1 = true
  /\ code st2 = 200
  /\ body st2 = [already_response]
  /\ csv (disk st2) = csv d1.
Proof.
  intros Hp Hv Hl Hsz Hfo Hwo Hsrc Hev Hp2 Hn Hvv d1.
  destruct (serve_accepted _ _ _ Hp Hv Hl Hsz Hfo Hwo) as (Hc & _).
  assert (Hl2 : listed v d1 = true).
  { unfold listed. fold d1 in Hc. rewrite Hc.
    unfold csvRow, source, isset. rewrite Hsrc. cbn [field_string scalar_string].
    destruct (row_line_plants (normalize raw) (now rq) p v q
                (ipAddress (server rq))
                (substr0 200 (or_else (HTTP_USER_AGENT (server rq)) ""))
                Hev) as (a & b & E).
    unfold appended. rewrite E, <- !append_assoc.
    change (String LF (v ++ String COMMA b))
      with (String LF "" ++ (v ++ String COMMA b)).
    rewrite <- append_assoc.
    rewrite file_lines_app by (apply ends_lf_app; reflexivity).
    destruct (file_lines_first v b (email_chars_one_line _ Hev))
      as (t1 & more & ->).
    rewrite map_app, existsb_app. cbn [map existsb].
    rewrite (row_matches_first _ _ _ Hev), String.eqb_refl.
    cbn [orb]. apply orb_true_r. }
  split; trivial. rewrite <- Hn in Hl2, Hvv.
  destruct (store_listed rq2 _ _ Hl2) as (Hr & Hcsv & _ & Hcode & Hb & _).
  cbv zeta. rewrite (serve_store _ _ _ Hp2 Hvv).
  - auto.
  - rewrite Hr. discriminate.
Qed.

(** ** Signups one after the other *)

(** Serving a request does not change what the storage allows. *)
Lemma serve_flags rq d :
  fopen_ok (disk (serve rq d)) = fopen_ok d
  /\ write_ok (disk (serve rq d)) = write_ok d.
Proof.
  assert (Hstore : forall email,
            fopen_ok (disk (snd (store rq email (initial d)))) = fopen_ok d
            /\ write_ok (disk (snd (store rq email (initial d)))) = write_ok d).
  { intros email.
    destruct (store rq email (initial d)) as [r st] eqn:E. revert E.
    destruct d as [[f|] dir fo wo]; destruct dir, fo, wo; script;
      rewrite ?reject_listed_run;
      repeat match goal with
             | |- context [if ?b then _ else _] => destruct b; script
             end;
      intros E; injection E as <- <-; split; reflexivity. }
  assert (Hserve : disk (serve rq d) = disk (snd (waitlist rq (initial d)))).
  { unfold serve. destruct (waitlist rq (initial d)) as [[u| |e] st]; reflexivity. }
  rewrite Hserve. destruct (posted_email rq) as [raw|] eqn:Hp.
  - rewrite (waitlist_posted _ _ _ Hp).
    destruct (validate_email (normalize raw)); [|split; reflexivity].
    rewrite try_catch_disk. apply Hstore.
  - unfold posted_email in Hp. unfold waitlist.
    destruct (String.eqb_spec (REQUEST_METHOD (server rq)) "POST") as [Hm|Hm].
    + rewrite Hm in *. unfold isset in *.
      destruct (php_not (input rq)); [split; reflexivity|].
      destruct (index (input rq) "email") as [v|]; [|split; reflexivity].
      destruct v as [|[|]| | | |]; simpl in Hp; try discriminate;
        split; reflexivity.
    + destruct (String.eqb (REQUEST_METHOD (server rq)) "OPTIONS");
        split; reflexivity.
Qed.

Lemma serve_grows rq d :
  (strlen (content d) <= strlen (content (disk (serve rq d))))%N.
Proof.
  destruct (serve_content rq d) as [-> | [row ->]]; [lia|].
  pose proof (appended_longer d row). lia.
Qed.

Lemma disk_after_grows rqs : forall d,
  (strlen (content d) <= strlen (content (disk_after rqs d)))%N.
Proof.
  induction rqs as [|rq r IH]; intros d; simpl; [lia|].
  pose proof (serve_grows rq d). pose proof (IH (disk (serve rq d))). lia.
Qed.

(** X9: signups with pairwise different normalized emails, none of them
    listed, served one after the other on a ledger that holds n records of
    one line each, stays within the bound and can be written: the k-th is
    answered with status 200 and the position n + k, and at the end the
    ledger holds the n records followed by the rows of the signups, in the
    order served. *)
Theorem successive_signups_get_successive_positions rqs : forall d rows,
  Forall plain_signup rqs ->
  NoDup (map email_of rqs) ->
  (forall rq e, In rq rqs -> email_of rq = Some e -> listed e d = false) ->
  holds d rows = true ->
  forallb one_line_record rows = true ->
  fopen_ok d = true ->
  write_ok d = true ->
  (strlen (content (disk_after rqs d)) <= maxFileSize)%N ->
  (forall k st, nth_error (serve_each rqs d) k = Some st ->
     code st = 200
     /\ field "waitlistPosition" st
        = Some (JNum (Z.of_nat (List.length rows) + Z.of_nat k + 1)))
  /\ holds (disk_after rqs d) (rows ++ map row_of rqs) = true
  /\ forallb one_line_record (rows ++ map row_of rqs) = true.
Proof.
  induction rqs as [|rq r IH]; intros d rows Hall Hnd Hnew Hh Hone Hfo Hwo Hsz.
  - split; [intros [|k] st H; discriminate|]. simpl.
    rewrite app_nil_r. now split.
  - inversion Hall as [|? ? (raw & Hp & Hv & Hrow & Hne) Hall']; subst.
    inversion Hnd as [|? ? Hnotin Hnd']; subst.
    destruct (holds_count _ _ Hh Hone) as [Hok Hn].
    assert (He : email_of rq = Some (normalize raw))
      by (unfold email_of; now rewrite Hp).
    assert (Hrowof : row_of rq = csvRow rq (normalize raw))
      by (unfold row_of; now rewrite He).
    assert (Hl : listed (normalize raw) d = false)
      by (apply (Hnew rq); [now left | exact He]).
    assert (Hsz0 : (strlen (content d) <= maxFileSize)%N).
    { pose proof (disk_after_grows (rq :: r) d). lia. }
    destruct (serve_accepted _ _ _ Hp Hv Hl Hsz0 Hfo Hwo) as (Hc & Hcode & Hb & _).
    set (d1 := disk (serve rq d)) in *.
    assert (Hcontent : content d1 = appended d (csvRow rq (normalize raw)))
      by (unfold content; now rewrite Hc).
    assert (Hh1 : holds d1 (rows ++ [row_of rq]) = true)
      by (rewrite Hrowof; now apply (holds_step d)).
    assert (Hone1 : forallb one_line_record (rows ++ [row_of rq]) = true).
    { rewrite forallb_app, Hone, Hrowof. unfold csvRow in *.
      cbn [forallb one_line_record andb]. now rewrite Hrow. }
    destruct (holds_count _ _ Hh1 Hone1) as [Hok1 Hn1].
    rewrite length_app in Hn1. cbn [List.length] in Hn1.
    destruct (serve_flags rq d) as [Hfo1 Hwo1]. fold d1 in Hfo1, Hwo1.
    assert (Hnew1 : forall rq' e, In rq' r -> email_of rq' = Some e ->
                                  listed e d1 = false).
    { intros rq' e Hin He'. unfold csvRow in Hc, Hrow.
      rewrite (listed_after_one_line d d1 (normalize raw) _ _ e Hok
                 (email_chars_sanitize _) Hrow Hc).
      rewrite (Hnew rq' e (or_intror Hin) He').
      assert (Hdiff : normalize raw <> e).
      { intros E. subst e. apply Hnotin. rewrite He, <- He'.
        now apply in_map. }
      apply String.eqb_neq in Hdiff. rewrite Hdiff.
      rewrite Forall_forall in Hall'.
      destruct (Hall' rq' Hin) as (raw' & Hp' & _ & _ & Hne').
      unfold email_of in He'. rewrite Hp' in He'. injection He' as <-.
      apply not_eq_sym, String.eqb_neq in Hne'. rewrite Hne'.
      now rewrite andb_false_r. }
    destruct (IH d1 (rows ++ [row_of rq])%list Hall' Hnd' Hnew1 Hh1 Hone1)
      as (Hpos & Hfinal & Hrecs); try congruence.
    { exact Hsz. }
    change (disk_after (rq :: r) d) with (disk_after r d1).
    cbn [map]. rewrite <- app_assoc in Hfinal, Hrecs. cbn [app] in Hfinal, Hrecs.
    split; [|now split].
    intros [|k] st H.
    + simpl in H. injection H as <-. split; trivial.
      unfold field. rewrite Hb. cbn [index assoc String.eqb Ascii.eqb Bool.eqb].
      simpl. do 2 f_equal.
      rewrite <- Hcontent, <- ledger_count_content, Hn1. lia.
    + simpl in H. destruct (Hpos k st H) as [Hk Hf]. split; trivial.
      rewrite Hf, length_app. cbn [List.length]. do 2 f_equal. lia.
Qed.

End Endpoint.

(** ** The reference CSV reader meets the assumption on [str_getcsv] *)

Lemma chomp_cons c r :
  contains COMMA r = true -> chomp (String c r) = String c (chomp r).
Proof.
  destruct r as [|c2 [|c3 r]]; try discriminate; try reflexivity.
  rewrite contains_cons. simpl contains. rewrite orb_false_r. intros H.
  apply Ascii.eqb_eq in H as <-. cbn [chomp].
  now rewrite andb_false_r.
Qed.

Lemma chomp_comma r : chomp (String COMMA r) = String COMMA (chomp r).
Proof. destruct r as [|c2 [|c3 r]]; reflexivity. Qed.

Lemma chomp_first e t :
  chomp (e ++ String COMMA t) = e ++ String COMMA (chomp t).
Proof.
  induction e as [|c e IH]; [apply chomp_comma|].
  change (String c e ++ String COMMA t) with (String c (e ++ String COMMA t)).
  rewrite chomp_cons, IH; trivial.
  rewrite contains_append, contains_cons. simpl. apply orb_true_r.
Qed.

(** Once a field is finished, it stays the first of the row. *)
Lemma fields_first s : forall st cur acc x,
  hd_error (rev acc) = Some x ->
  hd_error (Reference.fields st cur acc s) = Some x.
Proof.
  assert (Hemit : forall cur acc x, hd_error (rev acc) = Some x ->
                    hd_error (rev (Reference.emit cur acc)) = Some x).
  { intros cur acc x H. unfold Reference.emit. simpl.
    destruct (rev acc); [discriminate | exact H]. }
  induction s as [|c s IH]; intros st cur acc x H; [now apply Hemit|].
  destruct st; cbn [Reference.fields];
    repeat match goal with
           | |- context [if ?b then _ else _] => destruct b
           end; auto.
Qed.

Lemma fields_plain e : forall cur acc t,
  contains COMMA e = false ->
  Reference.fields Reference.Plain cur acc (e ++ String COMMA t)
  = Reference.fields Reference.FieldStart []
      (Reference.emit (rev (list_ascii_of_string e) ++ cur) acc) t.
Proof.
  induction e as [|c e IH]; intros cur acc t H; [reflexivity|].
  rewrite contains_cons in H. apply orb_false_elim in H as [Hc He].
  simpl. rewrite Ascii.eqb_sym, Hc, (IH _ _ _ He).
  now rewrite <- app_assoc.
Qed.

Lemma reference_str_getcsv_first e t :
  email_chars e = true ->
  nth_error (Reference.str_getcsv (e ++ String COMMA t)) 0 = Some (Some e).
Proof.
  intros He. unfold Reference.str_getcsv. rewrite chomp_first.
  assert (Hc : contains COMMA e = false).
  { apply (email_chars_contains COMMA e); trivial.
    intros c H. apply (email_char_plain c H). }
  assert (Hq : contains DQUOTE e = false).
  { apply (email_chars_contains DQUOTE e); trivial.
    intros c H. apply (email_char_plain c H). }
  assert (Hhd : forall l, nth_error l 0 = @hd_error (option string) l)
    by (intros [|? ?]; reflexivity).
  rewrite Hhd. destruct e as [|c e].
  - change (hd_error (Reference.fields Reference.FieldStart []
                        (Reference.emit [] []) (chomp t)) = Some (Some "")).
    now apply fields_first.
  - rewrite contains_cons in Hc, Hq.
    apply orb_false_elim in Hc as [Hc Hce].
    apply orb_false_elim in Hq as [Hq Hqe].
    cbn [append Reference.fields].
    rewrite (Ascii.eqb_sym c DQUOTE), Hq, (Ascii.eqb_sym c COMMA), Hc.
    rewrite (fields_plain _ _ _ _ Hce).
    apply fields_first. unfold Reference.emit. cbn [rev app hd_error].
    rewrite rev_app_distr, rev_involutive. cbn [rev app].
    change (string_of_list_ascii (c :: list_ascii_of_string e))
      with (String c (string_of_list_ascii (list_ascii_of_string e))).
    now rewrite string_of_list_ascii_of_string.
Qed.

(** ** The endpoint on concrete requests *)

Abbreviation reference_serve :=
  (serve Reference.validate_email Reference.validate_ip Reference.str_getcsv).
Abbreviation reference_listed := (listed Reference.str_getcsv).

Ltac run := vm_compute; first [reflexivity | discriminate | intro; discriminate].

(** *** The two large ledgers: their sizes and their lines *)

Lemma strlen_copies p s : strlen (Sample.copies p s) = (Npos p * strlen s)%N.
Proof.
  induction p as [p IH|p IH|]; cbn [Sample.copies];
    rewrite ?strlen_append, ?IH; lia.
Qed.

Lemma ends_lf_copies p l : ends_lf l = true -> ends_lf (Sample.copies p l) = true.
Proof.
  intros H. induction p as [p IH|p IH|]; cbn [Sample.copies]; trivial;
    repeat apply ends_lf_app; trivial.
Qed.

(** Every line of a file of copies of one line is that line. *)
Lemma copies_lines p l x :
  file_lines l = [l] -> ends_lf l = true ->
  In x (file_lines (Sample.copies p l)) -> x = l.
Proof.
  intros Hl He. revert x.
  induction p as [p IH|p IH|]; cbn [Sample.copies]; intros x;
    rewrite ?file_lines_app by (trivial; now apply ends_lf_copies);
    rewrite ?in_app_iff, ?Hl; simpl; intuition.
Qed.

Lemma full_ledger_size : strlen Sample.full_ledger = maxFileSize.
Proof.
  unfold Sample.full_ledger. rewrite !strlen_append, strlen_copies.
  reflexivity.
Qed.

Lemma full_ledger_ends : ends_lf Sample.full_ledger = true.
Proof. unfold Sample.full_ledger. repeat apply ends_lf_app. reflexivity. Qed.

Lemma full_ledger_lines x :
  In x (file_lines Sample.full_ledger) ->
  x = Sample.header_line \/ x = Sample.row \/ x = Sample.short_row.
Proof.
  unfold Sample.full_ledger.
  rewrite file_lines_app by reflexivity.
  rewrite file_lines_app by (now apply ends_lf_copies).
  rewrite !in_app_iff. intros [H | [H | H]].
  - left. destruct H as [<- | []]. reflexivity.
  - right. left. now apply (copies_lines 63937).
  - right. right. destruct H as [<- | []]. reflexivity.
Qed.

Lemma full_ledger_ok : ledger_ok Sample.full_ledger = true.
Proof.
  unfold ledger_ok. apply orb_true_iff. right. apply andb_true_iff. split.
  - apply starts_with_spec. unfold Sample.full_ledger, Sample.header_line. eauto.
  - apply full_ledger_ends.
Qed.

Lemma not_listed_in_lines (parse : string -> list (option string)) e f :
  (forall x, In x (file_lines f) -> row_matches e (parse x) = false) ->
  listed parse e {| csv := Some f; data_dir := true;
                    fopen_ok := true; write_ok := true |} = false.
Proof.
  intros H. unfold listed. cbn [csv].
  apply not_true_iff_false. intros E.
  apply existsb_exists in E as (r & Hin & Hr).
  apply in_map_iff in Hin as (x & <- & Hx).
  rewrite (H x Hx) in Hr. discriminate.
Qed.

Lemma newcomer_not_in_full :
  reference_listed "new@example.com" Sample.full = false.
Proof.
  apply not_listed_in_lines. intros x Hx.
  destruct (full_ledger_lines x Hx) as [-> | [-> | ->]]; reflexivity.
Qed.

Lemma newcomer_not_in_oversize :
  reference_listed "new@example.com" Sample.oversize = false.
Proof.
  apply not_listed_in_lines. intros x. unfold Sample.oversize_ledger.
  rewrite file_lines_app by apply full_ledger_ends.
  rewrite in_app_iff. intros [Hx | [<- | []]]; [|reflexivity].
  destruct (full_ledger_lines x Hx) as [-> | [-> | ->]]; reflexivity.
Qed.

Lemma user_in_oversize :
  reference_listed "user@example.com" Sample.oversize = true.
Proof.
  unfold listed. cbn [csv Sample.oversize Sample.on_disk].
  apply existsb_exists. exists (Reference.str_getcsv Sample.row). split.
  - apply in_map. unfold Sample.oversize_ledger.
    rewrite file_lines_app by apply full_ledger_ends.
    apply in_or_app. right. now left.
  - reflexivity.
Qed.

Lemma oversize_ledger_size :
  strlen Sample.oversize_ledger = (maxFileSize + 164)%N.
Proof.
  unfold Sample.oversize_ledger. now rewrite strlen_append, full_ledger_size.
Qed.

(** *** Runs of the endpoint *)

(** A GET and an OPTIONS request on a ledger of one row. *)
Lemma non_post_witness :
  REQUEST_METHOD (server Sample.get) <> "POST"
  /\ REQUEST_METHOD (server Sample.options) <> "POST"
  /\ code (reference_serve Sample.get Sample.one_row) = 405
  /\ disk (reference_serve Sample.get Sample.one_row) = Sample.one_row
  /\ code (reference_serve Sample.options Sample.one_row) = 200
  /\ body (reference_serve Sample.options Sample.one_row) = [].
Proof.
  assert (Hg : REQUEST_METHOD (server Sample.get) <> "POST") by discriminate.
  assert (Ho : REQUEST_METHOD (server Sample.options) <> "POST") by discriminate.
  destruct (non_post_is_rejected_untouched Reference.validate_email
              Reference.validate_ip Reference.str_getcsv
              Sample.get Sample.one_row Hg) as (Hd & _ & _ & _ & H405).
  destruct (non_post_is_rejected_untouched Reference.validate_email
              Reference.validate_ip Reference.str_getcsv
              Sample.options Sample.one_row Ho) as (_ & _ & _ & H200 & _).
  destruct H405 as (Hc & _); [discriminate|].
  destruct H200 as (Hc' & Hb); [reflexivity|].
  exact (conj Hg (conj Ho (conj Hc (conj Hd (conj Hc' Hb))))).
Defined.

(** No payload, no email field, the text not-an-email and the empty email,
    each on a ledger of one row. *)
Lemma bad_email_witness :
  php_not (input Sample.no_payload) = true
  /\ isset (input Sample.no_email) "email" = false
  /\ Reference.validate_email (normalize "not-an-email") = false
  /\ Reference.validate_email (normalize "") = false
  /\ code (reference_serve Sample.no_payload Sample.one_row) = 400
  /\ code (reference_serve Sample.no_email Sample.one_row) = 400
  /\ code (reference_serve Sample.not_an_email Sample.one_row) = 400
  /\ code (reference_serve Sample.empty_email Sample.one_row) = 400
  /\ disk (reference_serve Sample.not_an_email Sample.one_row) = Sample.one_row.
Proof.
  assert (H1 : php_not (input Sample.no_payload) = true) by reflexivity.
  assert (H2 : isset (input Sample.no_email) "email" = false) by reflexivity.
  assert (H3 : Reference.validate_email (normalize "not-an-email") = false)
    by reflexivity.
  assert (H4 : Reference.validate_email (normalize "") = false) by reflexivity.
  destruct (bad_email_is_400_and_writes_nothing Reference.validate_email
              Reference.validate_ip Reference.str_getcsv
              Sample.no_payload Sample.one_row eq_refl (or_introl H1))
    as (C1 & _).
  destruct (bad_email_is_400_and_writes_nothing Reference.validate_email
              Reference.validate_ip Reference.str_getcsv
              Sample.no_email Sample.one_row eq_refl
              (or_intror (or_introl H2)))
    as (C2 & _).
  destruct (bad_email_is_400_and_writes_nothing Reference.validate_email
              Reference.validate_ip Reference.str_getcsv
              Sample.not_an_email Sample.one_row eq_refl
              (or_intror (or_intror
                 (ex_intro _ "not-an-email" (conj eq_refl H3)))))
    as (C3 & _ & D3 & _).
  destruct (bad_email_is_400_and_writes_nothing Reference.validate_email
              Reference.validate_ip Reference.str_getcsv
              Sample.empty_email Sample.one_row eq_refl
              (or_intror (or_intror (ex_intro _ "" (conj eq_refl H4)))))
    as (C4 & _).
  exact (conj H1 (conj H2 (conj H3 (conj H4
           (conj C1 (conj C2 (conj C3 (conj C4 D3)))))))).
Defined.

(** A listed email resubmitted to a ledger 164 bytes over the bound. *)
Lemma listed_email_witness :
  posted_email Sample.lower = Some "user@example.com"
  /\ Reference.validate_email (normalize "user@example.com") = true
  /\ reference_listed (normalize "user@example.com") Sample.oversize = true
  /\ (maxFileSize < strlen (content Sample.oversize))%N
  /\ code (reference_serve Sample.lower Sample.oversize) = 200
  /\ field "alreadyExists" (reference_serve Sample.lower Sample.oversize)
     = Some (JBool true)
  /\ ~ In OpFilesize (ops (reference_serve Sample.lower Sample.oversize)).
Proof.
  assert (Hp : posted_email Sample.lower = Some "user@example.com")
    by reflexivity.
  assert (Hv : Reference.validate_email (normalize "user@example.com") = true)
    by reflexivity.
  assert (Hl : reference_listed (normalize "user@example.com") Sample.oversize
               = true) by exact user_in_oversize.
  assert (Hsz : (maxFileSize < strlen (content Sample.oversize))%N).
  { change (content Sample.oversize) with Sample.oversize_ledger.
    rewrite oversize_ledger_size. reflexivity. }
  destruct (listed_email_succeeds_without_size_check Reference.validate_email
              Reference.validate_ip Reference.str_getcsv
              Sample.lower "user@example.com" Sample.oversize Hp Hv Hl)
    as (Hc & _ & _ & Ha & _ & _ & Hf & _).
  exact (conj Hp (conj Hv (conj Hl (conj Hsz (conj Hc (conj Ha Hf)))))).
Defined.

(** A new email submitted to a ledger 164 bytes over the bound. *)
Lemma oversize_ledger_witness :
  posted_email Sample.newcomer = Some "new@example.com"
  /\ Reference.validate_email (normalize "new@example.com") = true
  /\ csv Sample.oversize = Some Sample.oversize_ledger
  /\ reference_listed (normalize "new@example.com") Sample.oversize = false
  /\ (maxFileSize < strlen Sample.oversize_ledger)%N
  /\ code (reference_serve Sample.newcomer Sample.oversize) = 500
  /\ csv (disk (reference_serve Sample.newcomer Sample.oversize))
     = csv Sample.oversize.
Proof.
  assert (Hp : posted_email Sample.newcomer = Some "new@example.com")
    by reflexivity.
  assert (Hv : Reference.validate_email (normalize "new@example.com") = true)
    by reflexivity.
  assert (Hf : csv Sample.oversize = Some Sample.oversize_ledger)
    by reflexivity.
  assert (Hl : reference_listed (normalize "new@example.com") Sample.oversize
               = false) by exact newcomer_not_in_oversize.
  assert (Hsz : (maxFileSize < strlen Sample.oversize_ledger)%N).
  { rewrite oversize_ledger_size. reflexivity. }
  destruct (oversize_ledger_rejects_new_email Reference.validate_email
              Reference.validate_ip Reference.str_getcsv
              Sample.newcomer "new@example.com" Sample.oversize
              Sample.oversize_ledger Hp Hv Hf Hl Hsz)
    as (Hc & _ & _ & _ & Hd).
  exact (conj Hp (conj Hv (conj Hf (conj Hl (conj Hsz (conj Hc Hd)))))).
Defined.

(** C4 as stated fails at the bound itself: a ledger of exactly 10 MiB is
    at the bound, and a new valid email is still accepted and written. *)
Lemma ledger_at_the_bound_still_grows :
  (maxFileSize <= strlen (content Sample.full))%N
  /\ posted_email Sample.newcomer = Some "new@example.com"
  /\ Reference.validate_email (normalize "new@example.com") = true
  /\ reference_listed (normalize "new@example.com") Sample.full = false
  /\ code (reference_serve Sample.newcomer Sample.full) = 200
  /\ field "success" (reference_serve Sample.newcomer Sample.full)
     = Some (JBool true)
  /\ csv (disk (reference_serve Sample.newcomer Sample.full)) <> csv Sample.full.
Proof.
  assert (Hsz : strlen (content Sample.full) = maxFileSize)
    by exact full_ledger_size.
  assert (Hle : (strlen (content Sample.full) <= maxFileSize)%N)
    by (rewrite Hsz; reflexivity).
  destruct (serve_accepted Reference.validate_email Reference.validate_ip
              Reference.str_getcsv Sample.newcomer "new@example.com"
              Sample.full eq_refl eq_refl newcomer_not_in_full Hle
              eq_refl eq_refl) as (Hc & Hcode & Hb & _).
  split; [rewrite Hsz; reflexivity|].
  split; [reflexivity|]. split; [reflexivity|].
  split; [exact newcomer_not_in_full|]. split; [exact Hcode|].
  split; [unfold field; rewrite Hb; reflexivity|].
  rewrite Hc. apply appended_differs.
Qed.

(** A new email on a ledger that holds one record gets position 2, and the
    ledger then holds the two. *)
Lemma new_email_witness :
  posted_email Sample.newcomer = Some "new@example.com"
  /\ Reference.validate_email (normalize "new@example.com") = true
  /\ reference_listed (normalize "new@example.com") Sample.one_row = false
  /\ (strlen (content Sample.one_row) <= maxFileSize)%N
  /\ holds Sample.one_row [Sample.user_row] = true
  /\ forallb one_line_record [Sample.user_row] = true
  /\ one_line (csvRow Reference.validate_ip Sample.newcomer
                 (normalize "new@example.com")) = true
  /\ field "waitlistPosition" (reference_serve Sample.newcomer Sample.one_row)
     = Some (JNum 2)
  /\ holds (disk (reference_serve Sample.newcomer Sample.one_row))
       [Sample.user_row;
        ["new@example.com"; "2024-01-15 10:32:00"; "landing_page";
         "203.0.113.7"; "Mozilla/5.0 (X11; Linux x86_64)"]] = true.
Proof.
  assert (Hp : posted_email Sample.newcomer = Some "new@example.com")
    by reflexivity.
  assert (Hv : Reference.validate_email (normalize "new@example.com") = true)
    by reflexivity.
  assert (Hl : reference_listed (normalize "new@example.com") Sample.one_row
               = false) by reflexivity.
  assert (Hsz : (strlen (content Sample.one_row) <= maxFileSize)%N) by run.
  assert (Hh : holds Sample.one_row [Sample.user_row] = true) by reflexivity.
  assert (Hone : forallb one_line_record [Sample.user_row] = true)
    by reflexivity.
  assert (Hrow : one_line (csvRow Reference.validate_ip Sample.newcomer
                             (normalize "new@example.com")) = true)
    by reflexivity.
  destruct (new_email_gets_next_position Reference.validate_email
              Reference.validate_ip Reference.str_getcsv
              Sample.newcomer "new@example.com" Sample.one_row
              Hp Hv Hl Hsz eq_refl eq_refl)
    as (_ & _ & _ & _ & _ & _ & H).
  destruct (H [Sample.user_row] Hh Hone Hrow) as [Hpos Hnew].
  exact (conj Hp (conj Hv (conj Hl (conj Hsz (conj Hh (conj Hone (conj Hrow
           (conj Hpos Hnew)))))))).
Defined.

(** C2 as stated fails for a source tag with a line feed in it: the first
    signup into a missing ledger, which holds no record, gets position 2,
    not 1 + 0; the ledger then holds one record, and the next signup gets
    position 3, not 1 + 1. *)
Lemma two_line_row_counts_twice :
  posted_email Sample.two_line_source = Some "user@example.com"
  /\ Reference.validate_email (normalize "user@example.com") = true
  /\ reference_listed (normalize "user@example.com") Sample.no_ledger = false
  /\ ledger_count Sample.no_ledger = 0%Z
  /\ code (reference_serve Sample.two_line_source Sample.no_ledger) = 200
  /\ field "waitlistPosition"
       (reference_serve Sample.two_line_source Sample.no_ledger)
     = Some (JNum 2)
  /\ field "waitlistPosition"
       (reference_serve Sample.two_line_source Sample.no_ledger)
     <> Some (JNum (1 + ledger_count Sample.no_ledger))
  /\ holds Sample.no_ledger [] = true
  /\ (let d1 := disk (reference_serve Sample.two_line_source Sample.no_ledger) in
      holds d1 [["user@example.com"; "2024-01-15 10:30:00";
                 "promo" ++ String LF "spring"; "203.0.113.7";
                 "Mozilla/5.0 (X11; Linux x86_64)"]] = true
      /\ reference_listed (normalize "new@example.com") d1 = false
      /\ field "waitlistPosition" (reference_serve Sample.newcomer d1)
         = Some (JNum 3)).
Proof.
  repeat match goal with |- _ /\ _ => split end; try reflexivity.
  - vm_compute. discriminate.
  - cbv zeta. repeat split; reflexivity.
Qed.

(** After the upper-case email is accepted, it is listed and its lower-case
    form is not. *)
Lemma stored_email_witness :
  posted_email Sample.upper = Some "USER@Example.com "
  /\ Reference.validate_email (normalize "USER@Example.com ") = true
  /\ reference_listed (normalize "USER@Example.com ") Sample.no_ledger = false
  /\ (strlen (content Sample.no_ledger) <= maxFileSize)%N
  /\ ledger_ok (content Sample.no_ledger) = true
  /\ one_line (csvRow Reference.validate_ip Sample.upper
                 (normalize "USER@Example.com ")) = true
  /\ reference_listed "USER@Example.com"
       (disk (reference_serve Sample.upper Sample.no_ledger)) = true
  /\ reference_listed "user@example.com"
       (disk (reference_serve Sample.upper Sample.no_ledger)) = false.
Proof.
  assert (Hp : posted_email Sample.upper = Some "USER@Example.com ")
    by reflexivity.
  assert (Hv : Reference.validate_email (normalize "USER@Example.com ") = true)
    by reflexivity.
  assert (Hl : reference_listed (normalize "USER@Example.com ") Sample.no_ledger
               = false) by reflexivity.
  assert (Hsz : (strlen (content Sample.no_ledger) <= maxFileSize)%N) by run.
  assert (Hok : ledger_ok (content Sample.no_ledger) = true) by reflexivity.
  assert (Hrow : one_line (csvRow Reference.validate_ip Sample.upper
                             (normalize "USER@Example.com ")) = true)
    by reflexivity.
  destruct (email_is_stored_and_compared_verbatim Reference.validate_email
              Reference.validate_ip Reference.str_getcsv
              reference_str_getcsv_first
              Sample.upper "USER@Example.com " Sample.no_ledger
              Hp Hv Hl Hsz eq_refl eq_refl Hok Hrow)
    as (_ & Hcmp).
  exact (conj Hp (conj Hv (conj Hl (conj Hsz (conj Hok (conj Hrow
           (conj (Hcmp "USER@Example.com") (Hcmp "user@example.com")))))))).
Defined.

(** C1 as stated fails on the example of the specification: after the
    upper-case email has been accepted, the lower-case one is accepted too,
    and the ledger holds both. *)
Lemma lower_case_after_upper_case_is_stored_again :
  let first := reference_serve Sample.upper Sample.no_ledger in
  let second := reference_serve Sample.lower (disk first) in
  field "waitlistPosition" first = Some (JNum 1)
  /\ code second = 200
  /\ field "alreadyExists" second = None
  /\ field "waitlistPosition" second = Some (JNum 2)
  /\ csv (disk second)
     = Some (fputcsv_line csv_header
             ++ fputcsv_line ["USER@Example.com"; "2024-01-15 10:30:00";
                              "landing_page"; "203.0.113.7";
                              "Mozilla/5.0 (X11; Linux x86_64)"]
             ++ fputcsv_line ["user@example.com"; "2024-01-15 10:31:00";
                              "landing_page"; "203.0.113.7";
                              "Mozilla/5.0 (X11; Linux x86_64)"]).
Proof. repeat split; reflexivity. Qed.

(** The upper-case email, then the same email with other blanks around it. *)
Lemma resubmission_witness :
  posted_email Sample.upper = Some "USER@Example.com "
  /\ Reference.validate_email (normalize "USER@Example.com ") = true
  /\ reference_listed (normalize "USER@Example.com ") Sample.no_ledger = false
  /\ (strlen (content Sample.no_ledger) <= maxFileSize)%N
  /\ ledger_ok (content Sample.no_ledger) = true
  /\ posted_email Sample.upper_again = Some "  USER@Example.com"
  /\ normalize "  USER@Example.com" = normalize "USER@Example.com "
  /\ (let d1 := disk (reference_serve Sample.upper Sample.no_ledger) in
      let st2 := reference_serve Sample.upper_again d1 in
      field "alreadyExists" st2 = Some (JBool true)
      /\ csv (disk st2) = csv d1
      /\ ledger_count (disk st2) = ledger_count d1).
Proof.
  assert (Hp : posted_email Sample.upper = Some "USER@Example.com ")
    by reflexivity.
  assert (Hv : Reference.validate_email (normalize "USER@Example.com ") = true)
    by reflexivity.
  assert (Hl : reference_listed (normalize "USER@Example.com ") Sample.no_ledger
               = false) by reflexivity.
  assert (Hsz : (strlen (content Sample.no_ledger) <= maxFileSize)%N) by run.
  assert (Hok : ledger_ok (content Sample.no_ledger) = true) by reflexivity.
  assert (Hp2 : posted_email Sample.upper_again = Some "  USER@Example.com")
    by reflexivity.
  assert (Hn : normalize "  USER@Example.com" = normalize "USER@Example.com ")
    by reflexivity.
  destruct (resubmission_is_reported_not_stored Reference.validate_email
              Reference.validate_ip Reference.str_getcsv
              reference_str_getcsv_first
              Sample.upper "USER@Example.com "
              Sample.upper_again "  USER@Example.com" Sample.no_ledger
              Hp Hv Hl Hsz eq_refl eq_refl Hok Hp2 Hn)
    as (_ & _ & Ha & _ & Hc & Hw).
  exact (conj Hp (conj Hv (conj Hl (conj Hsz (conj Hok (conj Hp2 (conj Hn
           (conj Ha (conj Hc Hw))))))))).
Defined.

(** The row stored for a request that came through a proxy, and the row
    stored for a direct request with a user agent of 262 bytes. *)
Lemma stored_address_witness :
  posted_email Sample.upper = Some "USER@Example.com "
  /\ Reference.validate_email (normalize "USER@Example.com ") = true
  /\ reference_listed (normalize "USER@Example.com ") Sample.no_ledger = false
  /\ (strlen (content Sample.no_ledger) <= maxFileSize)%N
  /\ posted_email Sample.long_agent_signup = Some "agent@example.com"
  /\ Reference.validate_email (normalize "agent@example.com") = true
  /\ reference_listed (normalize "agent@example.com") Sample.one_row = false
  /\ (strlen (content Sample.one_row) <= maxFileSize)%N
  /\ (exists address agent,
        csv (disk (reference_serve Sample.upper Sample.no_ledger))
        = Some (appended Sample.no_ledger
                  ["USER@Example.com"; "2024-01-15 10:30:00"; "landing_page";
                   address; agent])
        /\ (exists first rest,
              " 203.0.113.7, 198.51.100.2" = first ++ rest
              /\ contains COMMA first = false
              /\ (rest = "" \/ exists r, rest = String COMMA r)
              /\ address = if Reference.validate_ip (trim first) then trim first
                           else "unknown")
        /\ (String.length agent <= 200)%nat)
  /\ csv (disk (reference_serve Sample.long_agent_signup Sample.one_row))
     = Some (appended Sample.one_row
               ["agent@example.com"; "2024-01-15 10:36:00";
                "9.2233720368548E+18"; "198.51.100.7";
                Sample.long_agent_200]).
Proof.
  assert (Hp : posted_email Sample.upper = Some "USER@Example.com ")
    by reflexivity.
  assert (Hv : Reference.validate_email (normalize "USER@Example.com ") = true)
    by reflexivity.
  assert (Hl : reference_listed (normalize "USER@Example.com ") Sample.no_ledger
               = false) by reflexivity.
  assert (Hsz : (strlen (content Sample.no_ledger) <= maxFileSize)%N) by run.
  assert (Hp' : posted_email Sample.long_agent_signup = Some "agent@example.com")
    by reflexivity.
  assert (Hv' : Reference.validate_email (normalize "agent@example.com") = true)
    by reflexivity.
  assert (Hl' : reference_listed (normalize "agent@example.com") Sample.one_row
                = false) by reflexivity.
  assert (Hsz' : (strlen (content Sample.one_row) <= maxFileSize)%N) by run.
  destruct (stored_address_and_agent Reference.validate_email
              Reference.validate_ip Reference.str_getcsv
              Sample.upper "USER@Example.com " Sample.no_ledger
              Hp Hv Hl Hsz eq_refl eq_refl)
    as (address & agent & Hc & Hfirst & _ & _ & Hlen & _).
  destruct (stored_address_and_agent Reference.validate_email
              Reference.validate_ip Reference.str_getcsv
              Sample.long_agent_signup "agent@example.com" Sample.one_row
              Hp' Hv' Hl' Hsz' eq_refl eq_refl)
    as (address' & agent' & Hc' & _ & Hwhole & [tail Hpre] & _ & _ & Hmin).
  assert (Ha : address' = "198.51.100.7") by (now rewrite (Hwhole eq_refl)).
  assert (Hg : agent' = Sample.long_agent_200).
  { apply (prefix_unique agent' Sample.long_agent_200 tail
             "1.12 FifthExtension/13.14.15 SixthExtension/16.17.18 Seventh/1").
    - exact (eq_trans (eq_sym Hpre) eq_refl).
    - exact (eq_trans Hmin eq_refl). }
  rewrite Ha, Hg in Hc'.
  refine (conj Hp (conj Hv (conj Hl (conj Hsz (conj Hp' (conj Hv' (conj Hl'
            (conj Hsz' (conj _ Hc'))))))))).
  exists address, agent. exact (conj Hc (conj Hfirst Hlen)).
Defined.

(** ** The widget *)

(** Whenever the request does not yield a decoded body with an OK status,
    the result is the one of the local store. *)
Lemma submit_falls_back email net t_meta t_result ls :
  match net with
  | Widget.HttpResponse status (Some _) => Widget.ok status = false
  | _ => True
  end ->
  Widget.submitToWaitlist email net t_meta t_result ls
  = Widget.demo email t_meta t_result ls.
Proof.
  destruct net as [msg | status [v|]]; simpl; trivial.
  - now intros ->.
  - destruct (Widget.ok status); trivial.
Qed.

(** The local store always resolves with success=true; it sets demoMode only
    for an email it did not hold. *)
Lemma demo_result email t_meta t_result ls :
  let r := fst (Widget.demo email t_meta t_result ls) in
  (exists v, r = Widget.Resolved v)
  /\ Widget.prop "success" r = Some (JBool true)
  /\ Widget.prop "demoMode" r
     = if Widget.includes email (Widget.get_emails ls) then None
       else Some (JBool true).
Proof.
  unfold Widget.demo.
  destruct (Widget.includes email (Widget.get_emails ls)); simpl; eauto.
Qed.

(** C8: with the endpoint unreachable, an email the local list already holds
    is answered from the local store with alreadyExists=true and a position,
    but without the demoMode flag that the new-email path sets; the
    endpoint's own answer to a listed email has no position. *)
Theorem already_registered_result_is_not_flagged :
  let again := fst (Widget.submitToWaitlist "user@example.com" Widget.unreachable
                      "2024-01-15T10:31:00.000Z" "2024-01-15T10:31:00.001Z"
                      Widget.one_signup) in
  let fresh := fst (Widget.submitToWaitlist "new@example.com" Widget.unreachable
                      "2024-01-15T10:31:00.000Z" "2024-01-15T10:31:00.001Z"
                      Widget.one_signup) in
  Widget.prop "success" again = Some (JBool true)
  /\ Widget.prop "alreadyExists" again = Some (JBool true)
  /\ Widget.prop "waitlistPosition" again = Some (JNum 1)
  /\ Widget.prop "demoMode" again = None
  /\ Widget.prop "demoMode" fresh = Some (JBool true)
  /\ Widget.prop "waitlistPosition" fresh = Some (JNum 2)
  /\ index already_response "waitlistPosition" = None.
Proof. repeat split; reflexivity. Qed.

(** C9: for a response whose status is not OK, whatever its body, the
    result of [submitToWaitlist] is the one of the local store: the promise
    resolves, with success=true, and the store is updated as in demo mode. *)
Theorem widget_hides_server_rejections email status payload t_meta t_result ls :
  Widget.ok status = false ->
  let r := Widget.submitToWaitlist email (Widget.HttpResponse status payload)
             t_meta t_result ls in
  r = Widget.demo email t_meta t_result ls
  /\ (exists v, fst r = Widget.Resolved v)
  /\ Widget.prop "success" (fst r) = Some (JBool true).
Proof.
  intros Hok r.
  assert (E : r = Widget.demo email t_meta t_result ls).
  { apply submit_falls_back. now destruct payload. }
  destruct (demo_result email t_meta t_result ls) as (Hv & Hs & _).
  rewrite E. auto.
Qed.

(** A 400 and a 500 answer of the endpoint, as the widget's caller sees
    them. *)
Lemma server_rejections_witness :
  Widget.ok 400 = false /\ Widget.ok 500 = false
  /\ Widget.prop "success"
       (fst (Widget.submitToWaitlist "not-an-email"
               (Widget.HttpResponse 400 (Some (failure "Invalid email format")))
               "2024-01-15T10:31:00.000Z" "2024-01-15T10:31:00.001Z"
               Widget.one_signup))
     = Some (JBool true)
  /\ Widget.prop "success"
       (fst (Widget.submitToWaitlist "new@example.com"
               (Widget.HttpResponse 500
                  (Some (failure "Service temporarily unavailable")))
               "2024-01-15T10:31:00.000Z" "2024-01-15T10:31:00.001Z"
               Widget.one_signup))
     = Some (JBool true).
Proof.
  assert (H400 : Widget.ok 400 = false) by reflexivity.
  assert (H500 : Widget.ok 500 = false) by reflexivity.
  destruct (widget_hides_server_rejections "not-an-email" 400
              (Some (failure "Invalid email format"))
              "2024-01-15T10:31:00.000Z" "2024-01-15T10:31:00.001Z"
              Widget.one_signup H400) as (_ & _ & S400).
  destruct (widget_hides_server_rejections "new@example.com" 500
              (Some (failure "Service temporarily unavailable"))
              "2024-01-15T10:31:00.000Z" "2024-01-15T10:31:00.001Z"
              Widget.one_signup H500) as (_ & _ & S500).
  exact (conj H400 (conj H500 (conj S400 S500))).
Defined.

(** ** The matcher and the language of a pattern *)

Section RegexFacts.

Local Open Scope list_scope.
Context {A : Type}.
Implicit Types (r s : Regex.re A) (u v w : list A).

Lemma nullable_lang r : Regex.nullable r = true <-> Regex.lang r [].
Proof.
  split.
  - induction r as [| |p|r IHr s IHs|r IHr s IHs|r IHr]; simpl; intros H;
      try discriminate.
    + constructor.
    + apply andb_true_iff in H as [Hr Hs].
      change (@nil A) with (@nil A ++ []). constructor; auto.
    + apply orb_true_iff in H as [H|H];
        [apply Regex.lang_alt_l | apply Regex.lang_alt_r]; auto.
    + constructor.
  - intros H. remember (@nil A) as w eqn:E.
    induction H as [|p a Hp|r s u v Hu IHu Hv IHv|r s u Hu IHu|r s u Hu IHu
                    |r|r u v Hu IHu Hv IHv]; simpl; trivial.
    + discriminate.
    + apply app_eq_nil in E as [-> ->]. now rewrite IHu, IHv.
    + now rewrite IHu.
    + rewrite IHu by trivial. apply orb_true_r.
Qed.

Lemma deriv_lang a r : forall w,
  Regex.lang (Regex.deriv a r) w <-> Regex.lang r (a :: w).
Proof.
  intros w. split.
  - revert w.
    induction r as [| |p|r IHr s IHs|r IHr s IHs|r IHr]; simpl; intros w H.
    + inversion H.
    + inversion H.
    + destruct (p a) eqn:Hp; inversion H; subst. now constructor.
    + destruct (Regex.nullable r) eqn:Hn.
      * inversion H as [| | |? ? ? H1|? ? ? H1| |]; subst.
        -- inversion H1; subst.
           match goal with
           | |- Regex.lang _ (a :: ?x ++ ?y) =>
               change (a :: x ++ y) with ((a :: x) ++ y)
           end.
           constructor; auto.
        -- change (a :: w) with ([] ++ a :: w).
           constructor; [now apply nullable_lang | auto].
      * inversion H; subst.
        match goal with
        | |- Regex.lang _ (a :: ?x ++ ?y) =>
            change (a :: x ++ y) with ((a :: x) ++ y)
        end.
        constructor; auto.
    + inversion H; subst;
        [apply Regex.lang_alt_l | apply Regex.lang_alt_r]; auto.
    + inversion H; subst.
      match goal with
      | |- Regex.lang _ (a :: ?x ++ ?y) =>
          change (a :: x ++ y) with ((a :: x) ++ y)
      end.
      constructor; auto.
  - intros H. remember (a :: w) as x eqn:E. revert w E.
    induction H as [|p b Hp|r s u v Hu IHu Hv IHv|r s u Hu IHu|r s u Hu IHu
                    |r|r u v Hu IHu Hv IHv]; intros w E; simpl.
    + discriminate.
    + injection E as -> <-. rewrite Hp. constructor.
    + destruct u as [|b u].
      * simpl in E. subst v.
        assert (Hn : Regex.nullable r = true) by now apply nullable_lang.
        rewrite Hn. apply Regex.lang_alt_r. now apply IHv.
      * simpl in E. injection E as -> <-.
        destruct (Regex.nullable r);
          [apply Regex.lang_alt_l|]; constructor; auto.
    + apply Regex.lang_alt_l. auto.
    + apply Regex.lang_alt_r. auto.
    + discriminate.
    + destruct u as [|b u].
      * simpl in E. now apply IHv.
      * simpl in E. injection E as -> <-. constructor; auto.
Qed.

(** The matcher decides membership in the language of the pattern. *)
Lemma matches_lang r w : Regex.matches r w = true <-> Regex.lang r w.
Proof.
  revert r. induction w as [|a w IH]; intros r; simpl.
  - apply nullable_lang.
  - rewrite IH. apply deriv_lang.
Qed.

Lemma lang_star_class p w :
  Regex.lang (Regex.Star (Regex.Class p)) w <-> forallb p w = true.
Proof.
  split.
  - intros H. remember (Regex.Star (Regex.Class p)) as r eqn:E.
    induction H as [|q a Hq|r s u v Hu IHu Hv IHv|r s u Hu IHu|r s u Hu IHu
                    |r|r u v Hu IHu Hv IHv]; try discriminate; trivial.
    injection E as ->. inversion Hu; subst. simpl.
    rewrite IHv by trivial. now rewrite H0.
  - induction w as [|a w IH]; simpl; intros H; [constructor|].
    apply andb_true_iff in H as [Ha Hw].
    change (a :: w) with ([a] ++ w). constructor; [now constructor | auto].
Qed.

Lemma lang_plus_class p w :
  Regex.lang (Regex.plus (Regex.Class p)) w
  <-> w <> [] /\ forallb p w = true.
Proof.
  unfold Regex.plus. split.
  - intros H. inversion H as [| |? ? u v Hu Hv| | | |]; subst.
    inversion Hu; subst. apply lang_star_class in Hv. simpl.
    split; [discriminate|]. now rewrite H1, Hv.
  - intros [Hne H]. destruct w as [|a w]; [now elim Hne|].
    simpl in H. apply andb_true_iff in H as [Ha Hw].
    change (a :: w) with ([a] ++ w).
    constructor; [now constructor | now apply lang_star_class].
Qed.

Lemma lang_class_cat p r w :
  Regex.lang (Regex.Cat (Regex.Class p) r) w
  <-> exists a v, w = a :: v /\ p a = true /\ Regex.lang r v.
Proof.
  split.
  - intros H. inversion H as [| |? ? u v Hu Hv| | | |]; subst.
    inversion Hu; subst. simpl. eauto.
  - intros (a & v & -> & Ha & Hv). change (a :: v) with ([a] ++ v).
    constructor; [now constructor | trivial].
Qed.

Lemma lang_cat_inv r s w :
  Regex.lang (Regex.Cat r s) w
  <-> exists u v, w = u ++ v /\ Regex.lang r u /\ Regex.lang s v.
Proof.
  split.
  - intros H. inversion H; subst. eauto.
  - intros (u & v & -> & Hu & Hv). now constructor.
Qed.

End RegexFacts.

(** ** The form *)

Lemma list_ascii_append a b :
  list_ascii_of_string (a ++ b)
  = (list_ascii_of_string a ++ list_ascii_of_string b)%list.
Proof. induction a as [|c a IH]; simpl; congruence. Qed.

Lemma string_of_list_append (a b : list ascii) :
  string_of_list_ascii (a ++ b)
  = string_of_list_ascii a ++ string_of_list_ascii b.
Proof. induction a as [|c a IH]; simpl; congruence. Qed.

Lemma nonempty_list s : nonempty s = true <-> list_ascii_of_string s <> [].
Proof. destruct s; simpl; split; congruence. Qed.

Lemma part_lang s :
  Form.part s = true
  <-> Regex.lang (Regex.plus (Regex.Class Form.not_space_at))
        (list_ascii_of_string s).
Proof.
  unfold Form.part. rewrite lang_plus_class, andb_true_iff, nonempty_list.
  tauto.
Qed.

(** The strings the pattern of [validateEmail] accepts. *)
Lemma emailRegex_accepts email :
  Form.test Form.emailRegex email = true
  <-> exists loc dom tld,
        email = loc ++ "@" ++ dom ++ "." ++ tld
        /\ Form.part loc = true /\ Form.part dom = true
        /\ Form.part tld = true.
Proof.
  unfold Form.test, Form.emailRegex. rewrite matches_lang. split.
  - intros H.
    apply lang_cat_inv in H as (u1 & w1 & E1 & H1 & H).
    apply lang_class_cat in H as (a & w2 & -> & Ha & H).
    apply lang_cat_inv in H as (u2 & w3 & -> & H2 & H).
    apply lang_class_cat in H as (b & u3 & -> & Hb & H3).
    apply Ascii.eqb_eq in Ha as ->. apply Ascii.eqb_eq in Hb as ->.
    exists (string_of_list_ascii u1), (string_of_list_ascii u2),
           (string_of_list_ascii u3).
    rewrite !part_lang, !list_ascii_of_string_of_list_ascii.
    repeat split; trivial.
    rewrite <- (string_of_list_ascii_of_string email), E1.
    rewrite string_of_list_append. cbn [string_of_list_ascii].
    rewrite string_of_list_append. reflexivity.
  - intros (loc & dom & tld & -> & Hl & Hd & Ht).
    apply part_lang in Hl, Hd, Ht.
    rewrite !list_ascii_append.
    apply lang_cat_inv. eexists _, _. split; [reflexivity|]. split; trivial.
    apply lang_class_cat. eexists _, _. split; [reflexivity|].
    split; [reflexivity|].
    apply lang_cat_inv. eexists _, _. split; [reflexivity|]. split; trivial.
    apply lang_class_cat. eexists _, _. split; [reflexivity|].
    split; [reflexivity|]. exact Ht.
Qed.

(** X10: [validateEmail] answers true exactly for the strings of the form
    local@domain.tld in which the three parts are non-empty and hold no white
    space and no at sign; the domain and the last part may hold further
    dots. *)
Theorem validateEmail_accepts_exactly email m :
  fst (Form.validateEmail email m) = true
  <-> exists loc dom tld,
        email = loc ++ "@" ++ dom ++ "." ++ tld
        /\ Form.part loc = true /\ Form.part dom = true
        /\ Form.part tld = true.
Proof.
  rewrite <- emailRegex_accepts. unfold Form.validateEmail.
  destruct (nonempty email) eqn:En; simpl.
  - destruct (Form.test Form.emailRegex email); simpl; split; congruence.
  - destruct email; [|discriminate]. split; discriminate.
Qed.

(** X11: when the trimmed value of the input is not accepted by
    [validateEmail], [handleSubmit] sends no request whatever
    [submitToWaitlist] is: local storage is untouched, the input gets the
    class error, one of the two field messages goes to the live region, and
    the button and the two global messages are as they were. *)
Theorem invalid_email_sends_no_request to_string null_error submit m ls :
  Form.isSubmitting m = false ->
  Form.test Form.emailRegex (Form.js_trim (Form.value (Form.emailInput m)))
  = false ->
  let r := Form.handleSubmit to_string null_error submit m ls in
  snd r = ls
  /\ Form.handleSubmit_begin m = (None, fst r)
  /\ Form.has_error (Form.emailInput (fst r)) = true
  /\ (Form.live_region (fst r) = Some "Please enter your email address"
      \/ Form.live_region (fst r) = Some "Please enter a valid email address")
  /\ Form.isSubmitting (fst r) = false
  /\ Form.submitBtn (fst r) = Form.submitBtn m
  /\ Form.success_message (fst r) = Form.success_message m
  /\ Form.global_error_message (fst r) = Form.global_error_message m.
Proof.
  intros Hs Ht. unfold Form.handleSubmit, Form.handleSubmit_begin.
  rewrite Hs. unfold Form.validateEmail. rewrite Ht.
  destruct (nonempty (Form.js_trim (Form.value (Form.emailInput m))));
    simpl; rewrite ?Hs; repeat split; auto.
Qed.

(** X12: at most one request is out.  When [handleSubmit] sends a request,
    the email sent is the trimmed value of the input and an accepted one,
    the manager is submitting and the button and the input are disabled;
    a second [handleSubmit] before the request settles sends nothing and
    changes nothing. *)
Theorem one_request_at_a_time m email m1 :
  Form.handleSubmit_begin m = (Some email, m1) ->
  email = Form.js_trim (Form.value (Form.emailInput m))
  /\ Form.test Form.emailRegex email = true
  /\ Form.isSubmitting m1 = true
  /\ Form.btn_disabled (Form.submitBtn m1) = true
  /\ Form.disabled (Form.emailInput m1) = true
  /\ Form.handleSubmit_begin m1 = (None, m1).
Proof.
  unfold Form.handleSubmit_begin at 1.
  destruct (Form.isSubmitting m); [discriminate|].
  unfold Form.validateEmail.
  destruct (nonempty (Form.js_trim (Form.value (Form.emailInput m))));
    [|discriminate].
  destruct (Form.test Form.emailRegex
              (Form.js_trim (Form.value (Form.emailInput m)))) eqn:Ht;
    [|discriminate].
  simpl. intros E. injection E as <- <-. repeat split; trivial.
Qed.

(** X13: however the request settles, [handleSubmit] ends with the manager
    not submitting, the button and the input enabled, and the text of one
    message in the live region.  When the result has a truthy success
    field, the text is written to the success element, which is shown, the
    input is emptied and the global error element is left as it was, shown
    or not; otherwise the text is written to the global error element,
    which is shown, the input keeps its value and the success element is
    left as it was.  An element that is missing stays missing. *)
Theorem settling_always_unlocks_the_form to_string null_error email r m :
  let m' := Form.handleSubmit_settle to_string null_error email r m in
  Form.isSubmitting m' = false
  /\ Form.submitBtn m'
     = {| Form.loading := false; Form.btn_disabled := false;
          Form.aria_busy := Some "false" |}
  /\ Form.disabled (Form.emailInput m') = false
  /\ exists text,
       Form.live_region m' = Some text
       /\ if Form.truthy (Widget.prop "success" r)
          then Form.success_message m' = Form.say text (Form.success_message m)
               /\ Form.global_error_message m' = Form.global_error_message m
               /\ Form.value (Form.emailInput m') = ""
               /\ Form.tracked m'
                  = (Form.tracked m ++ [("waitlist_join_success", email)])%list
          else Form.global_error_message m'
               = Form.say text (Form.global_error_message m)
               /\ Form.success_message m' = Form.success_message m
               /\ Form.value (Form.emailInput m')
                  = Form.value (Form.emailInput m)
               /\ exists message,
                    Form.tracked m'
                    = (Form.tracked m ++ [("waitlist_join_error", message)])%list.
Proof.
  assert (Hf : forall message,
            let m' := Form.failed message m in
            Form.isSubmitting m' = false
            /\ Form.submitBtn m'
               = {| Form.loading := false; Form.btn_disabled := false;
                    Form.aria_busy := Some "false" |}
            /\ Form.disabled (Form.emailInput m') = false
            /\ exists text,
                 Form.live_region m' = Some text
                 /\ Form.global_error_message m'
                    = Form.say text (Form.global_error_message m)
                 /\ Form.success_message m' = Form.success_message m
                 /\ Form.value (Form.emailInput m')
                    = Form.value (Form.emailInput m)
                 /\ exists message,
                      Form.tracked m'
                      = (Form.tracked m
                         ++ [("waitlist_join_error", message)])%list).
  { intros message. simpl. repeat split.
    eexists. split; [reflexivity|]. repeat split. eauto. }
  cbv zeta. destruct r as [response | message]; [|apply Hf].
  change (Widget.prop "success" (Widget.Resolved response))
    with (index response "success").
  destruct (Form.truthy (index response "success")) eqn:Ht.
  - destruct response as [|b|z|s|items|kvs]; try discriminate Ht.
    unfold Form.handleSubmit_settle. rewrite Ht.
    simpl. repeat split. eexists. split; [reflexivity|]. repeat split.
  - destruct response as [|b|z|s|items|kvs];
      unfold Form.handleSubmit_settle; rewrite ?Ht; apply Hf.
Qed.

(** What is left of the page when a request is sent. *)
Lemma begin_keeps m email m1 :
  Form.handleSubmit_begin m = (Some email, m1) ->
  Form.success_message m1 = Form.success_message m
  /\ Form.global_error_message m1 = Form.global_error_message m
  /\ Form.tracked m1 = Form.tracked m
  /\ Form.value (Form.emailInput m1) = Form.value (Form.emailInput m).
Proof.
  unfold Form.handleSubmit_begin.
  destruct (Form.isSubmitting m); [discriminate|].
  unfold Form.validateEmail.
  destruct (nonempty (Form.js_trim (Form.value (Form.emailInput m))));
    [|discriminate].
  destruct (Form.test Form.emailRegex
              (Form.js_trim (Form.value (Form.emailInput m))));
    [|discriminate].
  simpl. intros E. injection E as <- <-. repeat split.
Qed.

Lemma welcome_nonempty n : nonempty (Widget.welcome n) = true.
Proof. reflexivity. Qed.

(** X14: with the script of part_003, when the request fails or is answered
    with a status that is not OK, the form shows the message of the local
    store as a success, empties the input and leaves the global error
    message alone: a refusal or fault of the endpoint is never shown. *)
Theorem fallback_shows_success_for_any_failure
  to_string null_error net t_meta t_result m ls email m1 :
  Form.handleSubmit_begin m = (Some email, m1) ->
  match net with
  | Widget.NetworkError _ => True
  | Widget.HttpResponse status _ => Widget.ok status = false
  end ->
  let r := Form.handleSubmit to_string null_error
             (Form.submit_with_fallback net t_meta t_result) m ls in
  let text := if Widget.includes email (Widget.get_emails ls)
              then Widget.already_message
              else Widget.welcome
                     (Widget.len (Widget.get_emails ls ++ [email])%list) in
  Form.live_region (fst r) = Some text
  /\ Form.success_message (fst r) = Form.say text (Form.success_message m)
  /\ Form.global_error_message (fst r) = Form.global_error_message m
  /\ Form.value (Form.emailInput (fst r)) = ""
  /\ snd r = snd (Widget.demo email t_meta t_result ls).
Proof.
  intros Hb Hnet. destruct (begin_keeps _ _ _ Hb) as (Hs & Hg & _ & _).
  unfold Form.handleSubmit. rewrite Hb. unfold Form.submit_with_fallback.
  rewrite submit_falls_back
    by (destruct net as [msg | status [v|]]; trivial).
  unfold Widget.demo.
  destruct (Widget.includes email (Widget.get_emails ls)).
  - cbn. rewrite Hs, Hg. repeat split.
  - cbv zeta. cbn [fst snd Form.handleSubmit_settle].
    change (Form.truthy (index _ "success")) with true. cbv iota.
    unfold Form.or_text.
    change (index _ "message")
      with (Some (JStr (Widget.welcome
                          (Widget.len (Widget.get_emails ls ++ [email])%list)))).
    cbn [Form.truthy Form.text_of]. rewrite welcome_nonempty.
    cbn. rewrite Hs, Hg. repeat split.
Qed.

(** X15: with the script of assets/js/waitlist.js, a status that is not OK
    is shown as the global error message HTTP error! status: N, which also
    goes to the live region; the success message is not touched, the
    input keeps its value and local storage is not written. *)
Theorem plain_script_shows_the_status
  to_string null_error parse_error status payload m ls email m1 :
  Form.handleSubmit_begin m = (Some email, m1) ->
  Widget.ok status = false ->
  let r := Form.handleSubmit to_string null_error
             (Form.submit_plain parse_error
                (Widget.HttpResponse status payload)) m ls in
  let text := "HTTP error! status: " ++ decimal (Z.of_nat status) in
  Form.live_region (fst r) = Some text
  /\ Form.global_error_message (fst r)
     = Form.say text (Form.global_error_message m)
  /\ Form.success_message (fst r) = Form.success_message m
  /\ Form.value (Form.emailInput (fst r)) = Form.value (Form.emailInput m)
  /\ snd r = ls.
Proof.
  intros Hb Hok. destruct (begin_keeps _ _ _ Hb) as (Hs & Hg & _ & Hv).
  unfold Form.handleSubmit. rewrite Hb. unfold Form.submit_plain.
  rewrite Hok. cbn. rewrite Hs, Hg, Hv. repeat split.
Qed.

(** X16: the form of assets/js/waitlist.js on the answers of the endpoint
    to a POST request.  A status 200 is shown as a success with the
    endpoint's welcome or already-listed message; any other status as the
    global error HTTP error! status: N.  So when the ledger has changed,
    the form shows the welcome message. *)
Theorem form_shows_what_the_endpoint_did
  validate_email validate_ip str_getcsv
  to_string null_error parse_error rq d m ls email m1 :
  REQUEST_METHOD (server rq) = "POST" ->
  Form.handleSubmit_begin m = (Some email, m1) ->
  let st := serve validate_email validate_ip str_getcsv rq d in
  let r := Form.handleSubmit to_string null_error
             (Form.submit_plain parse_error (Form.http_of st)) m ls in
  (code st = 200 ->
   exists text,
     (text = welcome_message \/ text = already_message)
     /\ Form.success_message (fst r) = Form.say text (Form.success_message m)
     /\ Form.global_error_message (fst r) = Form.global_error_message m)
  /\ (code st <> 200 ->
      Form.global_error_message (fst r)
      = Form.say ("HTTP error! status: " ++ decimal (Z.of_nat (code st)))
          (Form.global_error_message m)
      /\ Form.success_message (fst r) = Form.success_message m)
  /\ (content (disk st) <> content d ->
      Form.success_message (fst r)
      = Form.say welcome_message (Form.success_message m)).
Proof.
  intros Hm Hb. destruct (begin_keeps _ _ _ Hb) as (Hs & Hg & _ & Hv).
  pose proof (serve_cases validate_email validate_ip str_getcsv rq d) as H.
  cbv zeta in *. unfold Form.handleSubmit. rewrite Hb.
  unfold Form.submit_plain, Form.http_of, content in *.
  destruct H as [H|[H|[H|[H|[H|[H|[H|[H|[H|(raw & H)]]]]]]]]];
    decompose [and] H; clear H;
    repeat match goal with
           | H : code _ = _ |- _ => rewrite H
           | H : body _ = _ |- _ => rewrite H
           | H : disk _ = _ |- _ => rewrite H
           | H : csv (disk _) = _ |- _ => rewrite H
           end;
    try congruence;
    cbn; rewrite ?Hs, ?Hg;
    (split;
     [intros E;
      first [discriminate
            | eexists; split; [|split; reflexivity]; auto]|]);
    (split; [intros E; first [now elim E | split; reflexivity]|]);
    intros E; first [now elim E | reflexivity].
Qed.

(** ** The local store of the fallback *)

Lemma includes_last email l : Widget.includes email (l ++ [email]) = true.
Proof.
  unfold Widget.includes. rewrite existsb_app. simpl.
  rewrite String.eqb_refl. now rewrite orb_true_r.
Qed.

Lemma includes_in email l : Widget.includes email l = true <-> In email l.
Proof.
  unfold Widget.includes. rewrite existsb_exists. split.
  - intros (x & Hx & E). apply String.eqb_eq in E. now subst.
  - intros H. exists email. split; trivial. apply String.eqb_refl.
Qed.

Lemma assoc_put {A} k (v : A) o : assoc k (Widget.put k v o) = Some v.
Proof.
  induction o as [|[k' v'] o IH]; simpl.
  - now rewrite String.eqb_refl.
  - destruct (String.eqb k k') eqn:E; simpl.
    + now rewrite String.eqb_refl.
    + now rewrite E.
Qed.

Lemma assoc_put_other {A} k k' (v : A) o :
  k' <> k -> assoc k' (Widget.put k v o) = assoc k' o.
Proof.
  intros Hne. induction o as [|[k0 v0] o IH]; simpl.
  - apply String.eqb_neq in Hne. now rewrite Hne.
  - destruct (String.eqb k k0) eqn:E; simpl.
    + apply String.eqb_eq in E. subst k0.
      apply String.eqb_neq in Hne. now rewrite Hne.
    + destruct (String.eqb k' k0); trivial.
Qed.

(** An assignment stores the value under its key, unless the key is
    [__proto__] and the object has no own property of that name: then the
    object keeps the properties it had. *)
Lemma assoc_set_key {A} k (v : A) o :
  k <> "__proto__" \/ Widget.has_own k o = true ->
  assoc k (Widget.set_key k v o) = Some v.
Proof.
  intros H. unfold Widget.set_key.
  destruct (String.eqb_spec k "__proto__") as [E|E]; simpl.
  - destruct H as [H|H]; [contradiction|]. rewrite H. simpl. apply assoc_put.
  - apply assoc_put.
Qed.

Lemma set_key_proto {A} k (v : A) o :
  k = "__proto__" -> Widget.has_own k o = false -> Widget.set_key k v o = o.
Proof. intros -> H. unfold Widget.set_key. now rewrite H. Qed.

Lemma assoc_set_other {A} k k' (v : A) o :
  k' <> k -> assoc k' (Widget.set_key k v o) = assoc k' o.
Proof.
  intros Hne. unfold Widget.set_key.
  destruct (String.eqb k "__proto__" && negb (Widget.has_own k o)); trivial.
  now apply assoc_put_other.
Qed.

(** X17: an email the local store does not hold is added by the fallback,
    and submitting it again is answered alreadyExists=true with the same
    position, leaving local storage as the first submission left it. *)
Theorem local_store_remembers email t1 t2 t3 t4 ls :
  Widget.includes email (Widget.get_emails ls) = false ->
  let first := Widget.demo email t1 t2 ls in
  let second := Widget.demo email t3 t4 (snd first) in
  Widget.prop "alreadyExists" (fst first) = None
  /\ Widget.prop "alreadyExists" (fst second) = Some (JBool true)
  /\ Widget.prop "waitlistPosition" (fst second)
     = Widget.prop "waitlistPosition" (fst first)
  /\ snd second = snd first.
Proof.
  intros H. cbv zeta. unfold Widget.demo. rewrite H.
  cbn [snd fst Widget.get_emails Widget.waitlist_emails].
  rewrite includes_last. repeat split.
Qed.

(** X18: the positions of the local store are consistent.  The position
    returned is the length of the stored list; the list keeps its emails in
    place and stays free of duplicates.  For a new email other than
    [__proto__] the metadata stored under it carries the position returned;
    for the email [__proto__] the assignment changes the prototype and the
    stored metadata is what it was (unless the stored object already has an
    own property of that name, which is then replaced).  In each case the
    metadata of the other emails is not touched. *)
Theorem local_store_positions email t_meta t_result ls :
  let r := Widget.demo email t_meta t_result ls in
  let ls' := snd r in
  Widget.prop "waitlistPosition" (fst r)
  = Some (JNum (Widget.len (Widget.get_emails ls')))
  /\ (exists more, Widget.get_emails ls' = (Widget.get_emails ls ++ more)%list)
  /\ In email (Widget.get_emails ls')
  /\ (NoDup (Widget.get_emails ls) -> NoDup (Widget.get_emails ls'))
  /\ (Widget.includes email (Widget.get_emails ls) = false ->
      (email <> "__proto__"
       \/ Widget.has_own email (Widget.get_data ls) = true ->
       assoc email (Widget.get_data ls')
       = Some {| Widget.timestamp := t_meta;
                 Widget.source := "github_pages_demo";
                 Widget.position := Widget.len (Widget.get_emails ls') |})
      /\ (email = "__proto__" ->
          Widget.has_own email (Widget.get_data ls) = false ->
          Widget.get_data ls' = Widget.get_data ls)
      /\ forall k, k <> email ->
           assoc k (Widget.get_data ls') = assoc k (Widget.get_data ls)).
Proof.
  unfold Widget.demo.
  destruct (Widget.includes email (Widget.get_emails ls)) eqn:Hi;
    cbn [fst snd Widget.prop index assoc].
  - split; [reflexivity|]. split; [exists []; now rewrite app_nil_r|].
    split; [now apply includes_in|]. split; [trivial|]. discriminate.
  - cbn [Widget.get_emails Widget.get_data Widget.waitlist_emails
           Widget.waitlist_data].
    split; [reflexivity|]. split; [eauto|].
    split; [apply in_or_app; right; now left|].
    split.
    + intros Hnd. apply NoDup_app; trivial.
      * constructor; [intros []|constructor].
      * intros x Hx [<-|[]]. apply includes_in in Hx. congruence.
    + intros _. split; [|split].
      * apply assoc_set_key.
      * apply set_key_proto.
      * intros k Hk. now apply assoc_set_other.
Qed.

(** ** Runs for the further properties *)

(** A new email on the ledger of one row. *)
Lemma well_formed_ledger_witness :
  ledger_ok (content Sample.one_row) = true
  /\ ledger_ok (content (disk (reference_serve Sample.newcomer Sample.one_row)))
     = true.
Proof.
  assert (H : ledger_ok (content Sample.one_row) = true) by reflexivity.
  exact (conj H (serve_keeps_ledger_ok Reference.validate_email
                   Reference.validate_ip Reference.str_getcsv
                   Sample.newcomer Sample.one_row H)).
Defined.

(** A new email on a storage that does not open the file. *)
Lemma open_fault_witness :
  posted_email Sample.newcomer = Some "new@example.com"
  /\ Reference.validate_email (normalize "new@example.com") = true
  /\ reference_listed (normalize "new@example.com") Sample.read_only = false
  /\ (strlen (content Sample.read_only) <= maxFileSize)%N
  /\ fopen_ok Sample.read_only = false
  /\ code (reference_serve Sample.newcomer Sample.read_only) = 500
  /\ csv (disk (reference_serve Sample.newcomer Sample.read_only))
     = csv Sample.read_only.
Proof.
  assert (Hp : posted_email Sample.newcomer = Some "new@example.com")
    by reflexivity.
  assert (Hv : Reference.validate_email (normalize "new@example.com") = true)
    by reflexivity.
  assert (Hl : reference_listed (normalize "new@example.com") Sample.read_only
               = false) by reflexivity.
  assert (Hsz : (strlen (content Sample.read_only) <= maxFileSize)%N) by run.
  assert (Hfo : fopen_ok Sample.read_only = false) by reflexivity.
  destruct (open_fault_is_a_generic_500 Reference.validate_email
              Reference.validate_ip Reference.str_getcsv
              Sample.newcomer "new@example.com" Sample.read_only
              Hp Hv Hl Hsz Hfo) as (Hc & _ & _ & Hd).
  exact (conj Hp (conj Hv (conj Hl (conj Hsz (conj Hfo (conj Hc Hd)))))).
Defined.

(** A new email on a storage that opens the file but does not write. *)
Lemma write_fault_witness :
  posted_email Sample.newcomer = Some "new@example.com"
  /\ Reference.validate_email (normalize "new@example.com") = true
  /\ reference_listed (normalize "new@example.com") Sample.disk_full = false
  /\ (strlen (content Sample.disk_full) <= maxFileSize)%N
  /\ fopen_ok Sample.disk_full = true
  /\ write_ok Sample.disk_full = false
  /\ code (reference_serve Sample.newcomer Sample.disk_full) = 500
  /\ csv (disk (reference_serve Sample.newcomer Sample.disk_full))
     = Some (content Sample.disk_full).
Proof.
  assert (Hp : posted_email Sample.newcomer = Some "new@example.com")
    by reflexivity.
  assert (Hv : Reference.validate_email (normalize "new@example.com") = true)
    by reflexivity.
  assert (Hl : reference_listed (normalize "new@example.com") Sample.disk_full
               = false) by reflexivity.
  assert (Hsz : (strlen (content Sample.disk_full) <= maxFileSize)%N) by run.
  assert (Hfo : fopen_ok Sample.disk_full = true) by reflexivity.
  assert (Hwo : write_ok Sample.disk_full = false) by reflexivity.
  destruct (write_fault_is_a_generic_500 Reference.validate_email
              Reference.validate_ip Reference.str_getcsv
              Sample.newcomer "new@example.com" Sample.disk_full
              Hp Hv Hl Hsz Hfo Hwo) as (Hc & _ & _ & Hd).
  exact (conj Hp (conj Hv (conj Hl (conj Hsz (conj Hfo (conj Hwo
           (conj Hc Hd))))))).
Defined.

(** A signup whose source plants victim@example.com, then the victim's own
    signup. *)
Lemma planted_email_witness :
  posted_email Sample.planting = Some "promo@example.com"
  /\ Reference.validate_email (normalize "promo@example.com") = true
  /\ reference_listed (normalize "promo@example.com") Sample.one_row = false
  /\ reference_listed "victim@example.com" Sample.one_row = false
  /\ (strlen (content Sample.one_row) <= maxFileSize)%N
  /\ index (input Sample.planting) "source"
     = Some (JStr ("promo" ++ String LF ("victim@example.com" ++ String COMMA "")))
  /\ email_chars "victim@example.com" = true
  /\ posted_email Sample.victim = Some "victim@example.com"
  /\ normalize "victim@example.com" = "victim@example.com"
  /\ Reference.validate_email "victim@example.com" = true
  /\ (let d1 := disk (reference_serve Sample.planting Sample.one_row) in
      reference_listed "victim@example.com" d1 = true
      /\ body (reference_serve Sample.victim d1) = [already_response]
      /\ csv (disk (reference_serve Sample.victim d1)) = csv d1).
Proof.
  assert (Hp : posted_email Sample.planting = Some "promo@example.com")
    by reflexivity.
  assert (Hv : Reference.validate_email (normalize "promo@example.com") = true)
    by reflexivity.
  assert (Hl : reference_listed (normalize "promo@example.com") Sample.one_row
               = false) by reflexivity.
  assert (Hl' : reference_listed "victim@example.com" Sample.one_row = false)
    by reflexivity.
  assert (Hsz : (strlen (content Sample.one_row) <= maxFileSize)%N) by run.
  assert (Hsrc : index (input Sample.planting) "source"
                 = Some (JStr ("promo" ++ String LF
                                 ("victim@example.com" ++ String COMMA ""))))
    by reflexivity.
  assert (Hev : email_chars "victim@example.com" = true) by reflexivity.
  assert (Hp2 : posted_email Sample.victim = Some "victim@example.com")
    by reflexivity.
  assert (Hn : normalize "victim@example.com" = "victim@example.com")
    by reflexivity.
  assert (Hvv : Reference.validate_email "victim@example.com" = true)
    by reflexivity.
  destruct (line_feed_in_source_lists_another_email Reference.validate_email
              Reference.validate_ip Reference.str_getcsv
              reference_str_getcsv_first
              Sample.planting "promo@example.com" Sample.one_row
              "promo" "victim@example.com" "" Sample.victim
              "victim@example.com"
              Hp Hv Hl Hsz eq_refl eq_refl Hsrc Hev Hp2 Hn Hvv)
    as (H1 & _ & H2 & H3).
  exact (conj Hp (conj Hv (conj Hl (conj Hl' (conj Hsz (conj Hsrc (conj Hev
           (conj Hp2 (conj Hn (conj Hvv (conj H1 (conj H2 H3)))))))))))).
Defined.

(** Two signups, one after the other, into a ledger that holds one
    record. *)
Lemma successive_signups_witness :
  Forall (plain_signup Reference.validate_email Reference.validate_ip)
    [Sample.upper; Sample.newcomer]
  /\ NoDup (map email_of [Sample.upper; Sample.newcomer])
  /\ holds Sample.one_row [Sample.user_row] = true
  /\ forallb one_line_record [Sample.user_row] = true
  /\ (strlen (content (disk_after Reference.validate_email
                         Reference.validate_ip Reference.str_getcsv
                         [Sample.upper; Sample.newcomer] Sample.one_row))
      <= maxFileSize)%N
  /\ map (field "waitlistPosition")
       (serve_each Reference.validate_email Reference.validate_ip
          Reference.str_getcsv [Sample.upper; Sample.newcomer]
          Sample.one_row)
     = [Some (JNum 2); Some (JNum 3)]
  /\ holds (disk_after Reference.validate_email
              Reference.validate_ip Reference.str_getcsv
              [Sample.upper; Sample.newcomer] Sample.one_row)
       [Sample.user_row;
        ["USER@Example.com"; "2024-01-15 10:30:00"; "landing_page";
         "203.0.113.7"; "Mozilla/5.0 (X11; Linux x86_64)"];
        ["new@example.com"; "2024-01-15 10:32:00"; "landing_page";
         "203.0.113.7"; "Mozilla/5.0 (X11; Linux x86_64)"]] = true.
Proof.
  assert (Hall : Forall (plain_signup Reference.validate_email
                           Reference.validate_ip)
                   [Sample.upper; Sample.newcomer]).
  { repeat constructor.
    - exists "USER@Example.com ". repeat split; try reflexivity. discriminate.
    - exists "new@example.com". repeat split; try reflexivity. discriminate. }
  assert (Hnd : NoDup (map email_of [Sample.upper; Sample.newcomer])).
  { repeat constructor; simpl; intuition discriminate. }
  assert (Hnew : forall rq e, In rq [Sample.upper; Sample.newcomer] ->
                              email_of rq = Some e ->
                              reference_listed e Sample.one_row = false).
  { intros rq e [<-|[<-|[]]] E; injection E as <-; reflexivity. }
  assert (Hh : holds Sample.one_row [Sample.user_row] = true) by reflexivity.
  assert (Hone : forallb one_line_record [Sample.user_row] = true)
    by reflexivity.
  assert (Hsz : (strlen (content (disk_after Reference.validate_email
                                    Reference.validate_ip Reference.str_getcsv
                                    [Sample.upper; Sample.newcomer]
                                    Sample.one_row))
                 <= maxFileSize)%N) by run.
  destruct (successive_signups_get_successive_positions
              Reference.validate_email Reference.validate_ip
              Reference.str_getcsv reference_str_getcsv_first
              [Sample.upper; Sample.newcomer] Sample.one_row
              [Sample.user_row]
              Hall Hnd Hnew Hh Hone eq_refl eq_refl Hsz)
    as (Hpos & Hfinal & _).
  destruct (Hpos 0%nat _ eq_refl) as [_ H0].
  destruct (Hpos 1%nat _ eq_refl) as [_ H1].
  refine (conj Hall (conj Hnd (conj Hh (conj Hone (conj Hsz
            (conj _ Hfinal)))))).
  cbn [map serve_each]. rewrite H0, H1. reflexivity.
Defined.

(** The page with not-an-email typed in. *)
Lemma invalid_email_witness :
  let m := Form.blank "not-an-email" in
  let r := Form.handleSubmit field_string ""
             (Form.submit_with_fallback Widget.unreachable
                "2024-01-15T10:31:00.000Z" "2024-01-15T10:31:00.001Z")
             m Widget.one_signup in
  Form.isSubmitting m = false
  /\ Form.test Form.emailRegex (Form.js_trim (Form.value (Form.emailInput m)))
     = false
  /\ snd r = Widget.one_signup
  /\ Form.has_error (Form.emailInput (fst r)) = true
  /\ Form.isSubmitting (fst r) = false.
Proof.
  assert (Hs : Form.isSubmitting (Form.blank "not-an-email") = false)
    by reflexivity.
  assert (Ht : Form.test Form.emailRegex
                 (Form.js_trim
                    (Form.value (Form.emailInput (Form.blank "not-an-email"))))
               = false) by reflexivity.
  destruct (invalid_email_sends_no_request field_string ""
              (Form.submit_with_fallback Widget.unreachable
                 "2024-01-15T10:31:00.000Z" "2024-01-15T10:31:00.001Z")
              (Form.blank "not-an-email") Widget.one_signup Hs Ht)
    as (H1 & _ & H2 & _ & H3 & _).
  exact (conj Hs (conj Ht (conj H1 (conj H2 H3)))).
Defined.

(** The page with an email typed between blanks. *)
Lemma one_request_witness :
  let m := Form.blank "  user@example.com " in
  let m1 := snd (Form.handleSubmit_begin m) in
  Form.handleSubmit_begin m = (Some "user@example.com", m1)
  /\ Form.isSubmitting m1 = true
  /\ Form.handleSubmit_begin m1 = (None, m1).
Proof.
  assert (Hb : Form.handleSubmit_begin (Form.blank "  user@example.com ")
               = (Some "user@example.com",
                  snd (Form.handleSubmit_begin
                         (Form.blank "  user@example.com "))))
    by reflexivity.
  destruct (one_request_at_a_time _ _ _ Hb) as (_ & _ & H1 & _ & _ & H2).
  exact (conj Hb (conj H1 H2)).
Defined.

(** The endpoint answers 500 and the script of part_003 shows a welcome. *)
Lemma fallback_witness :
  let m := Form.blank "new@example.com" in
  let r := Form.handleSubmit field_string ""
             (Form.submit_with_fallback
                (Widget.HttpResponse 500
                   (Some (failure "Service temporarily unavailable")))
                "2024-01-15T10:31:00.000Z" "2024-01-15T10:31:00.001Z")
             m Widget.one_signup in
  Form.handleSubmit_begin m
  = (Some "new@example.com", snd (Form.handleSubmit_begin m))
  /\ Widget.ok 500 = false
  /\ Form.live_region (fst r) = Some (Widget.welcome 2)
  /\ Form.global_error_message (fst r) = Form.global_error_message m.
Proof.
  assert (Hb : Form.handleSubmit_begin (Form.blank "new@example.com")
               = (Some "new@example.com",
                  snd (Form.handleSubmit_begin (Form.blank "new@example.com"))))
    by reflexivity.
  assert (Hok : Widget.ok 500 = false) by reflexivity.
  destruct (fallback_shows_success_for_any_failure field_string ""
              (Widget.HttpResponse 500
                 (Some (failure "Service temporarily unavailable")))
              "2024-01-15T10:31:00.000Z" "2024-01-15T10:31:00.001Z"
              (Form.blank "new@example.com") Widget.one_signup _ _ Hb Hok)
    as (H1 & _ & H2 & _).
  exact (conj Hb (conj Hok (conj H1 H2))).
Defined.

(** The endpoint answers 500 and the script of assets/js/waitlist.js shows
    the status. *)
Lemma plain_script_witness :
  let m := Form.blank "new@example.com" in
  let r := Form.handleSubmit field_string "" 
             (Form.submit_plain "Unexpected end of JSON input"
                (Widget.HttpResponse 500
                   (Some (failure "Service temporarily unavailable"))))
             m Widget.one_signup in
  Form.handleSubmit_begin m
  = (Some "new@example.com", snd (Form.handleSubmit_begin m))
  /\ Widget.ok 500 = false
  /\ Form.live_region (fst r) = Some "HTTP error! status: 500"
  /\ snd r = Widget.one_signup.
Proof.
  assert (Hb : Form.handleSubmit_begin (Form.blank "new@example.com")
               = (Some "new@example.com",
                  snd (Form.handleSubmit_begin (Form.blank "new@example.com"))))
    by reflexivity.
  assert (Hok : Widget.ok 500 = false) by reflexivity.
  destruct (plain_script_shows_the_status field_string ""
              "Unexpected end of JSON input" 500
              (Some (failure "Service temporarily unavailable"))
              (Form.blank "new@example.com") Widget.one_signup _ _ Hb Hok)
    as (H1 & _ & _ & _ & H2).
  exact (conj Hb (conj Hok (conj H1 H2))).
Defined.

(** A new email through the form of assets/js/waitlist.js to an endpoint
    whose storage does not open the file. *)
Lemma form_and_endpoint_witness :
  let m := Form.blank "new@example.com" in
  let st := reference_serve Sample.newcomer Sample.read_only in
  let r := Form.handleSubmit field_string ""
             (Form.submit_plain "Unexpected end of JSON input"
                (Form.http_of st)) m Widget.one_signup in
  REQUEST_METHOD (server Sample.newcomer) = "POST"
  /\ Form.handleSubmit_begin m
     = (Some "new@example.com", snd (Form.handleSubmit_begin m))
  /\ code st <> 200
  /\ Form.global_error_message (fst r)
     = Form.say ("HTTP error! status: " ++ decimal (Z.of_nat (code st)))
         (Form.global_error_message m).
Proof.
  assert (Hm : REQUEST_METHOD (server Sample.newcomer) = "POST")
    by reflexivity.
  assert (Hb : Form.handleSubmit_begin (Form.blank "new@example.com")
               = (Some "new@example.com",
                  snd (Form.handleSubmit_begin (Form.blank "new@example.com"))))
    by reflexivity.
  assert (Hc : code (reference_serve Sample.newcomer Sample.read_only) <> 200)
    by (vm_compute; discriminate).
  destruct (form_shows_what_the_endpoint_did Reference.validate_email
              Reference.validate_ip Reference.str_getcsv field_string ""
              "Unexpected end of JSON input" Sample.newcomer Sample.read_only
              (Form.blank "new@example.com") Widget.one_signup _ _ Hm Hb)
    as (_ & H & _).
  exact (conj Hm (conj Hb (conj Hc (proj1 (H Hc))))).
Defined.

(** A new email in a browser that holds one signup, submitted twice. *)
Lemma local_store_witness :
  let first := Widget.demo "new@example.com" "2024-01-15T10:31:00.000Z"
                 "2024-01-15T10:31:00.001Z" Widget.one_signup in
  let second := Widget.demo "new@example.com" "2024-01-15T10:32:00.000Z"
                  "2024-01-15T10:32:00.001Z" (snd first) in
  Widget.includes "new@example.com" (Widget.get_emails Widget.one_signup)
  = false
  /\ Widget.prop "alreadyExists" (fst second) = Some (JBool true)
  /\ snd second = snd first.
Proof.
  assert (H : Widget.includes "new@example.com"
                (Widget.get_emails Widget.one_signup) = false) by reflexivity.
  destruct (local_store_remembers "new@example.com"
              "2024-01-15T10:31:00.000Z" "2024-01-15T10:31:00.001Z"
              "2024-01-15T10:32:00.000Z" "2024-01-15T10:32:00.001Z"
              Widget.one_signup H) as (_ & H1 & _ & H2).
  exact (conj H (conj H1 H2)).
Defined.

(** A preflight request: the answer without a body. *)
Lemma answer_shape_witness :
  body (reference_serve Sample.options Sample.one_row) = []
  /\ (REQUEST_METHOD (server Sample.options) = "OPTIONS"
      \/ (code (reference_serve Sample.options Sample.one_row) = 500
          /\ posted_email Sample.options = None)).
Proof.
  assert (Hb : body (reference_serve Sample.options Sample.one_row) = [])
    by reflexivity.
  destruct (every_answer_has_one_shape Reference.validate_email
              Reference.validate_ip Reference.str_getcsv
              Sample.options Sample.one_row) as (_ & _ & H).
  exact (conj Hb (H Hb)).
Defined.

(** An email with a dot in its domain. *)
Lemma accepted_email_witness :
  Form.part "user" = true /\ Form.part "mail.example" = true
  /\ Form.part "com" = true
  /\ fst (Form.validateEmail "user@mail.example.com" (Form.blank "")) = true.
Proof.
  refine (conj eq_refl (conj eq_refl (conj eq_refl _))).
  apply (proj2 (validateEmail_accepts_exactly "user@mail.example.com"
                  (Form.blank ""))).
  exact (ex_intro _ "user" (ex_intro _ "mail.example" (ex_intro _ "com"
           (conj eq_refl (conj eq_refl (conj eq_refl eq_refl)))))).
Defined.

(** A new email in a browser that holds one signup, and the email
    __proto__ in the same browser. *)
Lemma local_store_positions_witness :
  let r := Widget.demo "new@example.com" "2024-01-15T10:31:00.000Z"
             "2024-01-15T10:31:00.001Z" Widget.one_signup in
  let p := Widget.demo "__proto__" "2024-01-15T10:31:00.000Z"
             "2024-01-15T10:31:00.001Z" Widget.one_signup in
  NoDup (Widget.get_emails Widget.one_signup)
  /\ Widget.includes "new@example.com" (Widget.get_emails Widget.one_signup)
     = false
  /\ Widget.includes "__proto__" (Widget.get_emails Widget.one_signup) = false
  /\ Widget.has_own "__proto__" (Widget.get_data Widget.one_signup) = false
  /\ NoDup (Widget.get_emails (snd r))
  /\ assoc "new@example.com" (Widget.get_data (snd r))
     = Some {| Widget.timestamp := "2024-01-15T10:31:00.000Z";
               Widget.source := "github_pages_demo";
               Widget.position := Widget.len (Widget.get_emails (snd r)) |}
  /\ Widget.get_data (snd p) = Widget.get_data Widget.one_signup.
Proof.
  assert (Hn : NoDup (Widget.get_emails Widget.one_signup)).
  { vm_compute. repeat constructor. intros []. }
  assert (Hi : Widget.includes "new@example.com"
                 (Widget.get_emails Widget.one_signup) = false)
    by reflexivity.
  assert (Hi' : Widget.includes "__proto__"
                  (Widget.get_emails Widget.one_signup) = false)
    by reflexivity.
  assert (Ho : Widget.has_own "__proto__"
                 (Widget.get_data Widget.one_signup) = false)
    by reflexivity.
  destruct (local_store_positions "new@example.com"
              "2024-01-15T10:31:00.000Z" "2024-01-15T10:31:00.001Z"
              Widget.one_signup) as (_ & _ & _ & H1 & H2).
  destruct (local_store_positions "__proto__"
              "2024-01-15T10:31:00.000Z" "2024-01-15T10:31:00.001Z"
              Widget.one_signup) as (_ & _ & _ & _ & H3).
  assert (Hne : "new@example.com" <> "__proto__") by discriminate.
  exact (conj Hn (conj Hi (conj Hi' (conj Ho (conj (H1 Hn)
           (conj (proj1 (H2 Hi) (or_introl Hne))
                 (proj1 (proj2 (H3 Hi')) eq_refl Ho))))))).
Defined.
